(** * Youth Impact tutoring dashboard: filtering and aggregation layer

    A shallow embedding of the data-processing part of [app.py]: the
    sidebar filters that build [filtered_df], the headline KPI totals, the
    weekly group-by sums, the top-10 ranking, the learning-level comparison,
    the two pivot tables, and the download with its reload through
    [load_data].  Data frames are lists of records in row order; the
    dataframe primitives the script calls (boolean-mask selection, [isin],
    [groupby], [nlargest], [sort_values], [pivot], [pivot_table], [fillna],
    [to_csv], [read_csv]) are given as list functions.  Sums of integer
    columns are int64 sums: they wrap modulo 2^64. *)

From Stdlib Require Import ZArith QArith List String Ascii Bool Lia.
From Stdlib Require Import Permutation Sorted OrderedTypeEx.
From Stdlib Require Qcanon DecimalString DecimalZ DecimalPos.
Import ListNotations.

Local Open Scope string_scope.
Local Open Scope list_scope.
Local Open Scope Z_scope.

(** ** Data model *)

(** One row of [final_output.csv] after [load_data]: the source columns and
    the derived [week_start].  Integer columns are [Z]; the two float
    columns hold the rational each finite float64 denotes; [week_start] is a
    timestamp in nanoseconds since the epoch. *)
Record MetricRecord : Type := mkRecord {
  week : string;
  district : string;
  block : string;
  school : string;
  teachers_registered : Z;
  baseline_assessments : Z;
  endline_assessments : Z;
  baseline_average_level : Q;
  endline_average_level : Q;
  tutoring_calls : Z;
  week_start : Z
}.

Definition Table : Type := list MetricRecord.

(** What the script shows besides charts: the messages it raises on the way. *)
Inductive Notice : Type :=
| SidebarError (msg : string)
| Warning (msg : string).

(** The sidebar widgets' values: three multiselects and the two ends of the
    date range, as calendar days since the epoch ([datetime.date]). *)
Record Selection : Type := mkSelection {
  districts : list string;
  blocks : list string;
  schools : list string;
  start_date : Z;
  end_date : Z
}.

(** ** Dataframe primitives used by the filters *)

(** [pd.to_datetime] of a calendar day: midnight of that day. *)
Definition ns_per_day : Z := 86400000000000.
Definition to_datetime (d : Z) : Z := d * ns_per_day.

(** A week_start value on calendar day [n]. *)
Definition day (n : Z) : Z := to_datetime n.

(** Truth value of a Python list: non-empty. *)
Definition truthy {A : Type} (l : list A) : bool :=
  match l with
  | [] => false
  | _ :: _ => true
  end.

(** [Series.isin(values)] for one cell. *)
Definition isin (x : string) (values : list string) : bool :=
  existsb (String.eqb x) values.

(** An int64 result: the integer reduced into [-2^63, 2^63) modulo 2^64,
    which is what addition on an int64 column leaves. *)
Definition wrap64 (z : Z) : Z := (z + 2 ^ 63) mod 2 ^ 64 - 2 ^ 63.

(** The integers an int64 cell can hold. *)
Definition fits_int64 (z : Z) : Prop := - 2 ^ 63 <= z < 2 ^ 63.

(** [Series.sum()] of an int64 column: a reduction from 0 whose running
    total stays an int64. *)
Definition series_sum (l : list Z) : Z :=
  fold_left (fun acc x => wrap64 (acc + x)) l 0.

(** ** The filter pipeline (section 3 of the script) *)

Definition in_date_range (sel : Selection) (r : MetricRecord) : bool :=
  (to_datetime (start_date sel) <=? week_start r) &&
  (week_start r <=? to_datetime (end_date sel)).

Definition filter_date (sel : Selection) (df : Table) : Table * list Notice :=
  if start_date sel >? end_date sel
  then (df, [SidebarError "Start date cannot be after end date."])
  else (filter (in_date_range sel) df, []).

Definition filter_district (sel : Selection) (df : Table) : Table :=
  if truthy (districts sel)
  then filter (fun r => isin (district r) (districts sel)) df
  else df.

Definition filter_block (sel : Selection) (df : Table) : Table :=
  if truthy (blocks sel)
  then filter (fun r => isin (block r) (blocks sel)) df
  else df.

Definition filter_school (sel : Selection) (df : Table) : Table :=
  if truthy (schools sel)
  then filter (fun r => isin (school r) (schools sel)) df
  else df.

(** [filtered_df] together with the notices raised while computing it. *)
Definition filtered_df (sel : Selection) (df_analysis : Table)
  : Table * list Notice :=
  let filtered := df_analysis in
  let '(filtered, notices) := filter_date sel filtered in
  let filtered := filter_district sel filtered in
  let filtered := filter_block sel filtered in
  let filtered := filter_school sel filtered in
  (filtered, notices).

(** The four clauses as separate steps, to run them in another order. *)
Inductive Clause : Type := ByDate | ByDistrict | ByBlock | BySchool.

Definition apply_clause (sel : Selection) (c : Clause) (df : Table) : Table :=
  match c with
  | ByDate => fst (filter_date sel df)
  | ByDistrict => filter_district sel df
  | ByBlock => filter_block sel df
  | BySchool => filter_school sel df
  end.

Definition apply_clauses (sel : Selection) (order : list Clause) (df : Table)
  : Table :=
  fold_left (fun acc c => apply_clause sel c acc) order df.

(** The script up to the filters.  [load_data] either yields the table or
    raises [FileNotFoundError], on which the script reports and stops; past
    that point it always goes on to render. *)
Inductive Outcome : Type :=
| Halted (msg : string)
| Rendering (filtered : Table) (notices : list Notice).

Definition dashboard (loaded : option Table) (sel : Selection) : Outcome :=
  match loaded with
  | None =>
      Halted "File 'final_output.csv' not found. Please make sure the file is in the correct path."
  | Some df_analysis =>
      let '(filtered, notices) := filtered_df sel df_analysis in
      Rendering filtered notices
  end.

(** ** Headline KPIs (section 5 of the script) *)

(** [int(filtered_df[col].sum())] for an integer column; [int] of an
    integer is the integer itself. *)
Definition kpi_total (col : MetricRecord -> Z) (sel : Selection)
  (df_analysis : Table) : Z :=
  series_sum (map col (fst (filtered_df sel df_analysis))).

Definition total_teachers := kpi_total teachers_registered.
Definition total_baseline := kpi_total baseline_assessments.
Definition total_endline := kpi_total endline_assessments.
Definition total_tutoring := kpi_total tutoring_calls.

(** ** The filter contract in the specification's words *)

(** Row-wise reading of the filter contract: the date lies in the closed
    range, and each selection set is empty or contains the row's value. *)
Definition set_allows (values : list string) (x : string) : bool :=
  match values with
  | [] => true
  | _ => isin x values
  end.

Definition sets_allow (sel : Selection) (r : MetricRecord) : bool :=
  set_allows (districts sel) (district r) &&
  set_allows (blocks sel) (block r) &&
  set_allows (schools sel) (school r).

Definition spec_keeps (sel : Selection) (r : MetricRecord) : bool :=
  in_date_range sel r && sets_allow sel r.

(** Mathematical sum of a list of integers. *)
Fixpoint Zsum (l : list Z) : Z :=
  match l with
  | [] => 0
  | x :: l' => x + Zsum l'
  end.

(** Non-negative counts whose total fits in an int64: then the sum over
    any part of the rows fits too. *)
Definition counts_fit {A : Type} (col : A -> Z) (l : list A) : Prop :=
  (forall x, In x l -> 0 <= col x) /\ Zsum (map col l) < 2 ^ 63.

(** The date step as a row-wise selection: the range test when the range is
    well-formed, no test otherwise. *)
Definition date_clause (sel : Selection) (r : MetricRecord) : bool :=
  if start_date sel >? end_date sel then true else in_date_range sel r.

(** What [filtered_df] keeps, for every selection, well-formed or not. *)
Definition row_selected (sel : Selection) (r : MetricRecord) : bool :=
  date_clause sel r && sets_allow sel r.

(** The test one clause applies to one row. *)
Definition clause_test (sel : Selection) (c : Clause) (r : MetricRecord) : bool :=
  match c with
  | ByDate => date_clause sel r
  | ByDistrict => set_allows (districts sel) (district r)
  | ByBlock => set_allows (blocks sel) (block r)
  | BySchool => set_allows (schools sel) (school r)
  end.

(** ** Orders on grouping keys and on aggregated values *)

(** Keys a data frame can be grouped and sorted by: a three-way comparison
    that is a strict total order. *)
Class KeyOrder (K : Type) : Type := {
  cmp : K -> K -> comparison;
  cmp_eq : forall a b, cmp a b = Eq -> a = b;
  cmp_antisym : forall a b, cmp a b = CompOpp (cmp b a);
  cmp_trans : forall a b c, cmp a b = Lt -> cmp b c = Lt -> cmp a c = Lt
}.

Definition key_eqb {K : Type} `{KeyOrder K} (a b : K) : bool :=
  match cmp a b with
  | Eq => true
  | _ => false
  end.

Definition key_lt {K : Type} `{KeyOrder K} (a b : K) : Prop := cmp a b = Lt.

(** Values [nlargest] ranks by: a total preorder test. *)
Class ValueOrder (V : Type) : Type := {
  vleb : V -> V -> bool;
  vleb_total : forall a b, vleb a b = true \/ vleb b a = true;
  vleb_trans : forall a b c, vleb a b = true -> vleb b c = true -> vleb a c = true
}.

Lemma string_cmp_trans (a b c : string) :
  String.compare a b = Lt -> String.compare b c = Lt -> String.compare a c = Lt.
Proof.
  intros H1 H2. apply String_as_OT.cmp_lt.
  apply String_as_OT.cmp_lt in H1. apply String_as_OT.cmp_lt in H2.
  exact (String_as_OT.lt_trans _ _ _ H1 H2).
Qed.

(** Python orders [str] by code point, which is the byte order of UTF-8. *)
#[export] Instance string_order : KeyOrder string := {
  cmp := String.compare;
  cmp_eq := String.compare_eq_iff;
  cmp_antisym := String.compare_antisym;
  cmp_trans := string_cmp_trans
}.

Lemma Z_cmp_eq (a b : Z) : (a ?= b) = Eq -> a = b.
Proof. apply Z.compare_eq. Qed.

Lemma Z_cmp_trans (a b c : Z) : (a ?= b) = Lt -> (b ?= c) = Lt -> (a ?= c) = Lt.
Proof. rewrite !Z.compare_lt_iff. lia. Qed.

Lemma Z_cmp_antisym (a b : Z) : (a ?= b) = CompOpp (b ?= a).
Proof. apply Z.compare_antisym. Qed.

#[export] Instance Z_order : KeyOrder Z := {
  cmp := Z.compare;
  cmp_eq := Z_cmp_eq;
  cmp_antisym := Z_cmp_antisym;
  cmp_trans := Z_cmp_trans
}.

(** Two key columns: ordered by the first, then by the second. *)
Definition pair_cmp {A B : Type} `{KeyOrder A} `{KeyOrder B} (x y : A * B)
  : comparison :=
  match cmp (fst x) (fst y) with
  | Eq => cmp (snd x) (snd y)
  | c => c
  end.

Lemma cmp_refl {K : Type} `{KeyOrder K} (a : K) : cmp a a = Eq.
Proof.
  pose proof (cmp_antisym a a) as E. destruct (cmp a a); simpl in E; congruence.
Qed.

Lemma pair_cmp_eq {A B : Type} `{KeyOrder A} `{KeyOrder B} (x y : A * B) :
  pair_cmp x y = Eq -> x = y.
Proof.
  unfold pair_cmp. destruct x as [a b], y as [a' b']; simpl.
  destruct (cmp a a') eqn:E; try discriminate.
  intros E'. apply cmp_eq in E. apply cmp_eq in E'. congruence.
Qed.

Lemma pair_cmp_antisym {A B : Type} `{KeyOrder A} `{KeyOrder B} (x y : A * B) :
  pair_cmp x y = CompOpp (pair_cmp y x).
Proof.
  unfold pair_cmp. rewrite (cmp_antisym (fst x) (fst y)).
  destruct (cmp (fst y) (fst x)); simpl; auto using cmp_antisym.
Qed.

Lemma pair_cmp_trans {A B : Type} `{KeyOrder A} `{KeyOrder B} (x y z : A * B) :
  pair_cmp x y = Lt -> pair_cmp y z = Lt -> pair_cmp x z = Lt.
Proof.
  unfold pair_cmp. destruct x as [a b], y as [a' b'], z as [a'' b'']; simpl.
  destruct (cmp a a') eqn:E1; try discriminate;
    destruct (cmp a' a'') eqn:E2; try discriminate; intros H1 H2.
  - apply cmp_eq in E1. apply cmp_eq in E2. subst. rewrite cmp_refl.
    eapply cmp_trans; eassumption.
  - apply cmp_eq in E1. subst. now rewrite E2.
  - apply cmp_eq in E2. subst. now rewrite E1.
  - now rewrite (cmp_trans _ _ _ E1 E2).
Qed.

#[export] Instance pair_order {A B : Type} `{KeyOrder A} `{KeyOrder B}
  : KeyOrder (A * B) := {
  cmp := pair_cmp;
  cmp_eq := pair_cmp_eq;
  cmp_antisym := pair_cmp_antisym;
  cmp_trans := pair_cmp_trans
}.

Lemma Zleb_total (a b : Z) : (a <=? b) = true \/ (b <=? a) = true.
Proof. rewrite !Z.leb_le. lia. Qed.

Lemma Zleb_trans (a b c : Z) :
  (a <=? b) = true -> (b <=? c) = true -> (a <=? c) = true.
Proof. rewrite !Z.leb_le. lia. Qed.

#[export] Instance Z_values : ValueOrder Z := {
  vleb := Z.leb;
  vleb_total := Zleb_total;
  vleb_trans := Zleb_trans
}.

Lemma Qleb_total (a b : Q) : Qle_bool a b = true \/ Qle_bool b a = true.
Proof.
  rewrite !Qle_bool_iff. destruct (Qlt_le_dec a b) as [L | L].
  - left. now apply Qlt_le_weak.
  - now right.
Qed.

Lemma Qleb_trans (a b c : Q) :
  Qle_bool a b = true -> Qle_bool b c = true -> Qle_bool a c = true.
Proof. rewrite !Qle_bool_iff. apply Qle_trans. Qed.

#[export] Instance Q_values : ValueOrder Q := {
  vleb := Qle_bool;
  vleb_total := Qleb_total;
  vleb_trans := Qleb_trans
}.

(** ** [groupby]: split the rows by key *)

(** A grouped frame: the distinct keys in ascending order, each with its
    rows in the order they had in the frame. *)
Fixpoint add_to_group {Row K : Type} `{KeyOrder K} (k : K) (r : Row)
  (g : list (K * list Row)) : list (K * list Row) :=
  match g with
  | [] => [(k, [r])]
  | (k', rs) :: g' =>
      match cmp k k' with
      | Lt => (k, [r]) :: g
      | Eq => (k', rs ++ [r]) :: g'
      | Gt => (k', rs) :: add_to_group k r g'
      end
  end.

Definition groupby {Row K : Type} `{KeyOrder K} (key : Row -> K)
  (df : list Row) : list (K * list Row) :=
  fold_left (fun g r => add_to_group (key r) r g) df [].

(** The rows filed under key [k] in a grouped frame. *)
Fixpoint group_of {Row K : Type} `{KeyOrder K} (k : K)
  (g : list (K * list Row)) : list Row :=
  match g with
  | [] => []
  | (k', rs) :: g' => if key_eqb k k' then rs else group_of k g'
  end.

Definition keys_sorted {Row K : Type} `{KeyOrder K} (g : list (K * list Row))
  : Prop :=
  StronglySorted key_lt (map fst g).

(** [groupby(key)[col].sum().reset_index()]: one row per key. *)
Definition groupby_sum {Row K : Type} `{KeyOrder K} (key : Row -> K)
  (col : Row -> Z) (df : list Row) : list (K * Z) :=
  map (fun g => (fst g, series_sum (map col (snd g)))) (groupby key df).

(** [groupby(key)[[baseline_average_level, endline_average_level]].mean()
    .reset_index()].  The float mean is a parameter: its rounding is the
    library's, and nothing below depends on it. *)
Definition groupby_mean {K : Type} `{KeyOrder K} (mean : list Q -> Q)
  (key : MetricRecord -> K) (df : Table) : list (K * (Q * Q)) :=
  map (fun g => (fst g, (mean (map baseline_average_level (snd g)),
                         mean (map endline_average_level (snd g)))))
      (groupby key df).

(** ** [nlargest] and [sort_values] *)

(** Insertion of [x], which stood before every row of [l] in the frame, into
    [l] ordered by decreasing value: [x] goes in front of the first row
    whose value does not exceed its own. *)
Fixpoint insert_desc {A V : Type} `{ValueOrder V} (val : A -> V) (x : A)
  (l : list A) : list A :=
  match l with
  | [] => [x]
  | y :: l' =>
      if vleb (val y) (val x) then x :: l else y :: insert_desc val x l'
  end.

Definition sort_desc {A V : Type} `{ValueOrder V} (val : A -> V) (l : list A)
  : list A :=
  fold_right (insert_desc val) [] l.

(** [DataFrame.nlargest(n, column)] with the default [keep='first']: the
    first [n] rows by decreasing value, equal values in frame order. *)
Definition nlargest {A V : Type} `{ValueOrder V} (n : nat) (val : A -> V)
  (l : list A) : list A :=
  firstn n (sort_desc val l).

(** [a] ranks before [b] by decreasing value: its value is at least [b]'s,
    and on equal values it stood before [b] in the frame. *)
Definition ranked {A V : Type} `{ValueOrder V} (val : A -> V)
  (before : A -> A -> Prop) (a b : A) : Prop :=
  vleb (val b) (val a) = true /\ (vleb (val a) (val b) = true -> before a b).

(** [DataFrame.sort_values(by)] with the default [kind='quicksort']: the
    rows rearranged in ascending order of the key.  The order among equal
    keys is the sorting routine's own, so the routine is an interface and
    only its contract is fixed. *)
Class Sorter : Type := {
  sort_values : forall (A K : Type), KeyOrder K -> (A -> K) -> list A -> list A;
  sort_values_perm : forall (A K : Type) (O : KeyOrder K) (col : A -> K) l,
    Permutation (sort_values A K O col l) l;
  sort_values_sorted : forall (A K : Type) (O : KeyOrder K) (col : A -> K) l,
    StronglySorted (fun a b => cmp (col a) (col b) <> Gt)
                   (sort_values A K O col l)
}.

Arguments sort_values {_} {A K _} col l.

(** A routine that meets the contract: insertion into an ascending list,
    which is what the library does on short arrays. *)
Fixpoint insert_asc {A K : Type} `{KeyOrder K} (col : A -> K) (x : A)
  (l : list A) : list A :=
  match l with
  | [] => [x]
  | y :: l' =>
      match cmp (col x) (col y) with
      | Gt => y :: insert_asc col x l'
      | _ => x :: l
      end
  end.

Definition insertion_sort (A K : Type) (O : KeyOrder K) (col : A -> K)
  (l : list A) : list A :=
  fold_right (insert_asc col) [] l.

Lemma cmp_le_trans {K : Type} `{KeyOrder K} (a b c : K) :
  cmp a b <> Gt -> cmp b c <> Gt -> cmp a c <> Gt.
Proof.
  intros H1 H2.
  destruct (cmp a b) eqn:E1; [| |congruence].
  - apply cmp_eq in E1. now subst.
  - destruct (cmp b c) eqn:E2; [| |congruence].
    + apply cmp_eq in E2. subst. rewrite E1. discriminate.
    + rewrite (cmp_trans _ _ _ E1 E2). discriminate.
Qed.

Lemma insert_asc_perm {A K : Type} `{KeyOrder K} (col : A -> K) (x : A)
  (l : list A) : Permutation (insert_asc col x l) (x :: l).
Proof.
  induction l as [|y l IH]; simpl; [reflexivity|].
  destruct (cmp (col x) (col y)); try reflexivity.
  rewrite IH. apply perm_swap.
Qed.

Lemma insert_asc_sorted {A K : Type} `{KeyOrder K} (col : A -> K) (x : A)
  (l : list A) :
  StronglySorted (fun a b => cmp (col a) (col b) <> Gt) l ->
  StronglySorted (fun a b => cmp (col a) (col b) <> Gt) (insert_asc col x l).
Proof.
  induction l as [|y l IH]; simpl; intros S.
  - repeat constructor.
  - pose proof (StronglySorted_inv S) as [S' F].
    assert (Hle : cmp (col x) (col y) <> Gt ->
                  StronglySorted (fun a b => cmp (col a) (col b) <> Gt)
                                 (x :: y :: l)).
    { intros L. constructor; [exact S|]. constructor; [exact L|].
      rewrite Forall_forall in *. intros z Hz.
      exact (cmp_le_trans _ _ _ L (F z Hz)). }
    destruct (cmp (col x) (col y)) eqn:E.
    + apply Hle. discriminate.
    + apply Hle. discriminate.
    + constructor; [now apply IH|].
      rewrite Forall_forall in *. intros z Hz.
      apply (Permutation_in _ (insert_asc_perm col x l)) in Hz.
      destruct Hz as [<- | Hz]; [|now apply F].
      pose proof (cmp_antisym (col y) (col x)) as An. rewrite E in An.
      simpl in An. rewrite An. discriminate.
Qed.

Lemma insertion_sort_perm (A K : Type) (O : KeyOrder K) (col : A -> K)
  (l : list A) : Permutation (insertion_sort A K O col l) l.
Proof.
  unfold insertion_sort. induction l as [|x l IH]; simpl; [reflexivity|].
  rewrite insert_asc_perm. now constructor.
Qed.

Lemma insertion_sort_sorted (A K : Type) (O : KeyOrder K) (col : A -> K)
  (l : list A) :
  StronglySorted (fun a b => cmp (col a) (col b) <> Gt)
                 (insertion_sort A K O col l).
Proof.
  unfold insertion_sort. induction l as [|x l IH]; simpl.
  - constructor.
  - now apply insert_asc_sorted.
Qed.

#[export] Instance insertion_sorter : Sorter := {
  sort_values := insertion_sort;
  sort_values_perm := insertion_sort_perm;
  sort_values_sorted := insertion_sort_sorted
}.

(** Another routine that meets the contract, and one that does not keep
    rows of equal key in their order: the rows at even positions are put in
    front of those at odd positions before insertion. *)
Fixpoint alternate {A : Type} (l : list A) : list A * list A :=
  match l with
  | [] => ([], [])
  | x :: l' => let (a, b) := alternate l' in (x :: b, a)
  end.

Definition shuffling_sort (A K : Type) (O : KeyOrder K) (col : A -> K)
  (l : list A) : list A :=
  insertion_sort A K O col (fst (alternate l) ++ snd (alternate l)).

Lemma alternate_perm {A : Type} (l : list A) :
  Permutation (fst (alternate l) ++ snd (alternate l)) l.
Proof.
  induction l as [|x l IH]; simpl; [reflexivity|].
  destruct (alternate l) as [a b]. simpl in *.
  constructor. rewrite Permutation_app_comm. exact IH.
Qed.

Lemma shuffling_sort_perm (A K : Type) (O : KeyOrder K) (col : A -> K)
  (l : list A) : Permutation (shuffling_sort A K O col l) l.
Proof.
  unfold shuffling_sort. rewrite insertion_sort_perm. apply alternate_perm.
Qed.

Lemma shuffling_sort_sorted (A K : Type) (O : KeyOrder K) (col : A -> K)
  (l : list A) :
  StronglySorted (fun a b => cmp (col a) (col b) <> Gt)
                 (shuffling_sort A K O col l).
Proof. unfold shuffling_sort. apply insertion_sort_sorted. Qed.

Definition shuffling_sorter : Sorter := {|
  sort_values := shuffling_sort;
  sort_values_perm := shuffling_sort_perm;
  sort_values_sorted := shuffling_sort_sorted
|}.

(** [a] ranks before [b] by increasing key: its key is at most [b]'s, and
    on equal keys it stood before [b] in the frame. *)
Definition asc_ranked {A K : Type} `{KeyOrder K} (col : A -> K)
  (before : A -> A -> Prop) (a b : A) : Prop :=
  cmp (col a) (col b) <> Gt /\ (cmp (col a) (col b) = Eq -> before a b).

(** ** Weekly sums (tabs 1 and 4) *)

Definition weekly_sum `{Sorter} (col : MetricRecord -> Z) (filtered : Table)
  : list (Z * Z) :=
  sort_values fst (groupby_sum week_start col filtered).

Definition weekly_teachers `{Sorter} := weekly_sum teachers_registered.
Definition weekly_tutoring_calls `{Sorter} := weekly_sum tutoring_calls.

(** ** Top 10 schools by tutoring calls (tab 4) *)

Definition top_schools_tutoring `{Sorter} (filtered : Table)
  : list (string * Z) :=
  sort_values snd (nlargest 10 snd (groupby_sum school tutoring_calls filtered)).

(** ** Baseline against endline levels by district, block or school (tab 3) *)

Inductive Dimension : Type := District | Block | School.

Definition level_df (mean : list Q -> Q) (compare_option : Dimension)
  (filtered : Table) : list (string * (Q * Q)) :=
  match compare_option with
  | District => groupby_mean mean district filtered
  | Block => groupby_mean mean block filtered
  | School =>
      nlargest 20 (fun row => fst (snd row)) (groupby_mean mean school filtered)
  end.

(** Number of distinct values of a column. *)
Definition nunique (l : list string) : nat := List.length (nodup string_dec l).

(** ** Pivot tables (tabs 1 and 6) *)

(** A number in a frame: an int64, or a float64 given by the rational it
    denotes. *)
Inductive Number : Type :=
| IntNum (z : Z)
| FloatNum (q : Q).

(** The nearest integer with at most 53 significant bits, ties going to
    the even one: the value an int64 has as a float64. *)
Definition round53 (z : Z) : Z :=
  let a := Z.abs z in
  let e := Z.log2 a - 52 in
  if e <=? 0 then z
  else
    let q := Z.shiftr a e in
    let r := a - Z.shiftl q e in
    let half := Z.shiftl 1 (e - 1) in
    let q' :=
      if r <? half then q
      else if half <? r then q + 1
      else if Z.even q then q else q + 1 in
    Z.sgn z * Z.shiftl q' e.

Definition float64_of_int (z : Z) : Q := inject_Z (round53 z).

(** What a number becomes when its frame turns float64. *)
Definition to_float64 (x : Number) : Number :=
  match x with
  | IntNum z => FloatNum (float64_of_int z)
  | FloatNum q => FloatNum q
  end.

(** The rational a number denotes. *)
Definition number_value (x : Number) : Q :=
  match x with
  | IntNum z => inject_Z z
  | FloatNum q => q
  end.

(** A two-way table: the index values in order, each with its row of
    cells, one per column value in order.  A cell holds a number or is
    null ([None], the frame's NaN). *)
Definition Table2D (R C : Type) : Type := list (R * list (C * option Number)).

(** The cell at index value [r] and column value [c]: [None] when the table
    has no such position, [Some None] when the position is there and null. *)
Definition cell_at {R C : Type} `{KeyOrder R} `{KeyOrder C} (t : Table2D R C)
  (r : R) (c : C) : option (option Number) :=
  match find (fun row => key_eqb (fst row) r) t with
  | None => None
  | Some row => option_map snd (find (fun x => key_eqb (fst x) c) (snd row))
  end.

Definition lookup_entry {R C V : Type} `{KeyOrder R} `{KeyOrder C}
  (entries : list ((R * C) * V)) (r : R) (c : C) : option V :=
  option_map snd (find (fun e => key_eqb (fst e) (r, c)) entries).

Definition is_none {A : Type} (x : option A) : bool :=
  match x with
  | None => true
  | Some _ => false
  end.

(** Whether some index value and column value have no entry in common. *)
Definition any_gap {R C V : Type} `{KeyOrder R} `{KeyOrder C}
  (entries : list ((R * C) * V)) (index : list R) (columns : list C) : bool :=
  existsb (fun r => existsb (fun c => is_none (lookup_entry entries r c)) columns)
          index.

(** Reshaping of a long frame keyed by (index, column): the distinct index
    values down, the distinct column values across, both ascending; a
    position with no entry is null, and as soon as there is one the whole
    frame is float64. *)
Definition promotion (gap : bool) (x : Number) : Number :=
  if gap then to_float64 x else x.

Definition unstack {R C : Type} `{KeyOrder R} `{KeyOrder C}
  (entries : list ((R * C) * Number)) : Table2D R C :=
  let index := map fst (groupby (fun e => fst (fst e)) entries) in
  let columns := map fst (groupby (fun e => snd (fst e)) entries) in
  let promote := promotion (any_gap entries index columns) in
  map (fun r =>
         (r, map (fun c => (c, option_map promote (lookup_entry entries r c)))
                 columns))
      index.

(** The columns of [filtered_df], the options of the three selectboxes. *)
Inductive Column : Type :=
| ColWeek | ColDistrict | ColBlock | ColSchool
| ColTeachersRegistered | ColBaselineAssessments | ColEndlineAssessments
| ColBaselineAverageLevel | ColEndlineAverageLevel | ColTutoringCalls
| ColWeekStart.

Definition column_eq_dec (a b : Column) : {a = b} + {a <> b}.
Proof. decide equality. Defined.

Inductive Dtype : Type :=
| ObjectDtype | Int64Dtype | Float64Dtype | BoolDtype | DatetimeDtype.

Definition dtype (c : Column) : Dtype :=
  match c with
  | ColWeek | ColDistrict | ColBlock | ColSchool => ObjectDtype
  | ColTeachersRegistered | ColBaselineAssessments | ColEndlineAssessments
  | ColTutoringCalls => Int64Dtype
  | ColBaselineAverageLevel | ColEndlineAverageLevel => Float64Dtype
  | ColWeekStart => DatetimeDtype
  end.

(** [np.issubdtype(d, np.number)]. *)
Definition issubdtype_number (d : Dtype) : bool :=
  match d with
  | Int64Dtype | Float64Dtype => true
  | ObjectDtype | BoolDtype | DatetimeDtype => false
  end.

(** A numeric column with its cells. *)
Inductive NumericColumn : Type :=
| IntValues (name : Column) (col : MetricRecord -> Z)
| FloatValues (name : Column) (col : MetricRecord -> Q).

Definition numeric_name (v : NumericColumn) : Column :=
  match v with
  | IntValues name _ => name
  | FloatValues name _ => name
  end.

Definition as_numeric (c : Column) : option NumericColumn :=
  match c with
  | ColTeachersRegistered => Some (IntValues c teachers_registered)
  | ColBaselineAssessments => Some (IntValues c baseline_assessments)
  | ColEndlineAssessments => Some (IntValues c endline_assessments)
  | ColTutoringCalls => Some (IntValues c tutoring_calls)
  | ColBaselineAverageLevel => Some (FloatValues c baseline_average_level)
  | ColEndlineAverageLevel => Some (FloatValues c endline_average_level)
  | ColWeek | ColDistrict | ColBlock | ColSchool | ColWeekStart => None
  end.

(** Floats as grouping keys: equal floats are one key. *)
Lemma Qc_cmp_eq (a b : Qcanon.Qc) : Qcanon.Qccompare a b = Eq -> a = b.
Proof. apply Qcanon.Qceq_alt. Qed.

Lemma Qc_cmp_antisym (a b : Qcanon.Qc) :
  Qcanon.Qccompare a b = CompOpp (Qcanon.Qccompare b a).
Proof. unfold Qcanon.Qccompare. now rewrite Qcompare_antisym. Qed.

Lemma Qc_cmp_trans (a b c : Qcanon.Qc) :
  Qcanon.Qccompare a b = Lt -> Qcanon.Qccompare b c = Lt ->
  Qcanon.Qccompare a c = Lt.
Proof.
  intros H1 H2. apply Qcanon.Qclt_alt.
  apply Qcanon.Qclt_alt in H1. apply Qcanon.Qclt_alt in H2.
  exact (Qcanon.Qclt_trans _ _ _ H1 H2).
Qed.

#[export] Instance Qc_order : KeyOrder Qcanon.Qc := {
  cmp := Qcanon.Qccompare;
  cmp_eq := Qc_cmp_eq;
  cmp_antisym := Qc_cmp_antisym;
  cmp_trans := Qc_cmp_trans
}.

(** A column as a grouping key: the type of its cells, their order and the
    cell of a row. *)
Record KeyColumn : Type := mkKeyColumn {
  key_type : Type;
  key_order : KeyOrder key_type;
  key_of : MetricRecord -> key_type
}.

Definition key_column (c : Column) : KeyColumn :=
  match c with
  | ColWeek => mkKeyColumn string string_order week
  | ColDistrict => mkKeyColumn string string_order district
  | ColBlock => mkKeyColumn string string_order block
  | ColSchool => mkKeyColumn string string_order school
  | ColTeachersRegistered => mkKeyColumn Z Z_order teachers_registered
  | ColBaselineAssessments => mkKeyColumn Z Z_order baseline_assessments
  | ColEndlineAssessments => mkKeyColumn Z Z_order endline_assessments
  | ColTutoringCalls => mkKeyColumn Z Z_order tutoring_calls
  | ColBaselineAverageLevel =>
      mkKeyColumn Qcanon.Qc Qc_order (fun r => Qcanon.Q2Qc (baseline_average_level r))
  | ColEndlineAverageLevel =>
      mkKeyColumn Qcanon.Qc Qc_order (fun r => Qcanon.Q2Qc (endline_average_level r))
  | ColWeekStart => mkKeyColumn Z Z_order week_start
  end.

(** [np.sum] over the value cells of a group: int64 addition for an int64
    column; for a float64 column the library's float sum, a parameter. *)
Definition sum_values (float_sum : list Q -> Q) (v : NumericColumn)
  (rows : list MetricRecord) : Number :=
  match v with
  | IntValues _ col => IntNum (series_sum (map col rows))
  | FloatValues _ col => FloatNum (float_sum (map col rows))
  end.

(** The column names of a pivot must differ: grouping by a name that
    occurs twice raises [ValueError]. *)
Definition names_clash (index columns values : Column) : bool :=
  if column_eq_dec index columns then true
  else if column_eq_dec values index then true
  else if column_eq_dec values columns then true
  else false.

(** [pd.pivot_table(df, index, columns, values, aggfunc=np.sum)] for a
    numeric value column, with the default [fill_value=None]: group by the
    two fields, sum, reshape; [None] is the [ValueError]. *)
Definition pivot_table (float_sum : list Q -> Q) (index columns : Column)
  (values : NumericColumn) (df : Table)
  : option (Table2D (key_type (key_column index))
                    (key_type (key_column columns))) :=
  if names_clash index columns (numeric_name values) then None
  else
    Some (@unstack _ _ (key_order (key_column index))
                   (key_order (key_column columns))
            (map (fun g => (fst g, sum_values float_sum values (snd g)))
                 (@groupby _ _ (@pair_order _ _ (key_order (key_column index))
                                            (key_order (key_column columns)))
                    (fun x => (key_of (key_column index) x,
                               key_of (key_column columns) x)) df))).

(** What the Pivot Table Explorer comes to: the warning, the exception of
    [pd.pivot_table], or the table it shows. *)
Inductive PivotOutcome (R C : Type) : Type :=
| PivotWarning (notice : Notice)
| PivotRaises
| PivotShown (table : Table2D R C).

Arguments PivotWarning {R C} notice.
Arguments PivotRaises {R C}.
Arguments PivotShown {R C} table.

Definition pivot_data (float_sum : list Q -> Q)
  (pivot_index pivot_columns pivot_values : Column) (filtered : Table)
  : PivotOutcome (key_type (key_column pivot_index))
                 (key_type (key_column pivot_columns)) :=
  if negb (issubdtype_number (dtype pivot_values)) then
    PivotWarning (Warning "Please select a numeric field for 'Values Field'.")
  else
    match as_numeric pivot_values with
    | None =>
        PivotWarning (Warning "Please select a numeric field for 'Values Field'.")
    | Some values =>
        match pivot_table float_sum pivot_index pivot_columns values filtered with
        | None => PivotRaises
        | Some table => PivotShown table
        end
    end.

Fixpoint has_duplicates {K : Type} `{KeyOrder K} (l : list K) : bool :=
  match l with
  | [] => false
  | x :: l' => existsb (key_eqb x) l' || has_duplicates l'
  end.

(** [DataFrame.pivot(index, columns, values)] of an int64 value column:
    reshape without aggregating; it raises [ValueError] when a position
    occurs twice. *)
Definition pivot {R C : Type} `{KeyOrder R} `{KeyOrder C}
  (entries : list ((R * C) * Z)) : option (Table2D R C) :=
  if has_duplicates (map fst entries) then None
  else Some (unstack (map (fun e => (fst e, IntNum (snd e))) entries)).

(** [DataFrame.fillna(v)]: a null cell, which only a float64 frame has,
    becomes the float [v]. *)
Definition fillna {R C : Type} (v : Z) (t : Table2D R C) : Table2D R C :=
  map (fun row =>
         (fst row,
          map (fun x => (fst x, Some (match snd x with
                                      | Some y => y
                                      | None => FloatNum (inject_Z v)
                                      end))) (snd row))) t.

Definition dimension_column (d : Dimension) : MetricRecord -> string :=
  match d with
  | District => district
  | Block => block
  | School => school
  end.

(** Tab 1: teacher registrations per week and district, block or school,
    and their pivot with the gaps filled. *)
Definition group_data `{Sorter} (group_option : Dimension) (filtered : Table)
  : list ((Z * string) * Z) :=
  sort_values fst
    (groupby_sum (fun x => (week_start x, dimension_column group_option x))
                 teachers_registered filtered).

Definition pivot_df `{Sorter} (group_option : Dimension) (filtered : Table)
  : option (Table2D Z string) :=
  option_map (fillna 0) (pivot (group_data group_option filtered)).

(** The rows of a table that fall in one cell of a pivot. *)
Definition in_cell {R C : Type} `{KeyOrder R} `{KeyOrder C}
  (index : MetricRecord -> R) (columns : MetricRecord -> C) (r : R) (c : C)
  (x : MetricRecord) : bool :=
  key_eqb (index x) r && key_eqb (columns x) c.

(** Whether a week and a group of the table have no row in common, so that
    the pivot of tab 1 has a gap. *)
Definition sparse {R C : Type} `{KeyOrder R} `{KeyOrder C}
  (index : MetricRecord -> R) (columns : MetricRecord -> C) (df : Table) : bool :=
  existsb (fun x =>
             existsb (fun y => negb (existsb (in_cell index columns (index x) (columns y)) df))
                     df)
          df.

(** A cell of an int64 pivot: the int64 itself in a frame without gap, its
    float64 in a frame with one. *)
Definition frame_number (gap : bool) (z : Z) : Number :=
  if gap then FloatNum (float64_of_int z) else IntNum z.

(** ** Loading (section 2 of the script) *)

(** [s.split(sep)[0]]: the text before the first separator, the whole text
    when there is none. *)
Fixpoint first_segment (sep : ascii) (s : string) : string :=
  match s with
  | EmptyString => EmptyString
  | String c s' =>
      if Ascii.eqb c sep then EmptyString else String c (first_segment sep s')
  end.

(** Whether a character occurs in a text. *)
Fixpoint has_char (c : ascii) (s : string) : bool :=
  match s with
  | EmptyString => false
  | String c' s' => Ascii.eqb c' c || has_char c s'
  end.

(** A row of [final_output.csv] as [pd.read_csv] delivers it, before
    [week_start] is derived. *)
Record SourceRecord : Type := mkSource {
  src_week : string;
  src_district : string;
  src_block : string;
  src_school : string;
  src_teachers_registered : Z;
  src_baseline_assessments : Z;
  src_endline_assessments : Z;
  src_baseline_average_level : Q;
  src_endline_average_level : Q;
  src_tutoring_calls : Z
}.

(** [load_data]: every source column is kept and [week_start] is
    [pd.to_datetime] of the first segment of [week].  The date parser is the
    library's and is a parameter. *)
Definition load_row (parse_datetime : string -> Z) (x : SourceRecord)
  : MetricRecord :=
  mkRecord (src_week x) (src_district x) (src_block x) (src_school x)
    (src_teachers_registered x) (src_baseline_assessments x)
    (src_endline_assessments x) (src_baseline_average_level x)
    (src_endline_average_level x) (src_tutoring_calls x)
    (parse_datetime (first_segment "/" (src_week x))).

Definition load_data (parse_datetime : string -> Z) (csv : list SourceRecord)
  : Table :=
  map (load_row parse_datetime) csv.

(** ** Sidebar options and defaults (section 3 of the script) *)

(** [Series.unique()]: the distinct values in order of first appearance. *)
Fixpoint unique_from (seen : list string) (l : list string) : list string :=
  match l with
  | [] => []
  | x :: l' =>
      if isin x seen then unique_from seen l'
      else x :: unique_from (x :: seen) l'
  end.

Definition unique (l : list string) : list string := unique_from [] l.

(** Python's [sorted] on strings. *)
Definition sorted (l : list string) : list string :=
  insertion_sort string string string_order (fun x => x) l.

(** The options offered by the three multiselects. *)
Definition district_options (df_analysis : Table) : list string :=
  sorted (unique (map district df_analysis)).

Definition block_options (df_analysis : Table) : list string :=
  sorted (unique (map block df_analysis)).

Definition school_options (df_analysis : Table) : list string :=
  sorted (unique (map school df_analysis)).

(** [Series.min()] and [Series.max()] of the timestamp column; there is no
    value on an empty column. *)
Definition series_min (l : list Z) : option Z :=
  match l with
  | [] => None
  | x :: l' => Some (fold_left Z.min l' x)
  end.

Definition series_max (l : list Z) : option Z :=
  match l with
  | [] => None
  | x :: l' => Some (fold_left Z.max l' x)
  end.

(** [Timestamp.date()]: the calendar day a timestamp falls on. *)
Definition date_of (t : Z) : Z := t / ns_per_day.

(** The selection of an untouched sidebar: no district, block or school
    picked ([default=None]) and the date range running from the day of
    [min_date] to the day of [max_date]. *)
Definition default_selection (df_analysis : Table) : option Selection :=
  match series_min (map week_start df_analysis),
        series_max (map week_start df_analysis) with
  | Some min_date, Some max_date =>
      Some (mkSelection [] [] [] (date_of min_date) (date_of max_date))
  | _, _ => None
  end.

(** ** Assessments by district or block (tab 2) *)

(** [groupby(key)[[col1, col2]].sum().reset_index()]. *)
Definition groupby_sum2 {Row K : Type} `{KeyOrder K} (key : Row -> K)
  (col1 col2 : Row -> Z) (df : list Row) : list (K * (Z * Z)) :=
  map (fun g => (fst g, (series_sum (map col1 (snd g)),
                         series_sum (map col2 (snd g)))))
      (groupby key df).

Definition weekly_assessments `{Sorter} (filtered : Table)
  : list (Z * (Z * Z)) :=
  sort_values fst
    (groupby_sum2 week_start baseline_assessments endline_assessments filtered).

(** The radio button of tab 2. *)
Inductive AssessOption : Type := AssessByDistrict | AssessByBlock.

Definition group_assess (assess_option : AssessOption) (filtered : Table)
  : list (string * (Z * Z)) :=
  match assess_option with
  | AssessByDistrict =>
      groupby_sum2 district baseline_assessments endline_assessments filtered
  | AssessByBlock =>
      groupby_sum2 block baseline_assessments endline_assessments filtered
  end.

(** The column the radio button of tab 2 groups by. *)
Definition assess_key (assess_option : AssessOption) : MetricRecord -> string :=
  match assess_option with
  | AssessByDistrict => district
  | AssessByBlock => block
  end.

(** ** District heatmap (tab 5) *)

Definition district_levels `{Sorter} (mean : list Q -> Q) (filtered : Table)
  : list (string * (Q * Q)) :=
  sort_values fst (groupby_mean mean district filtered).

(** The heatmap's two rows of values and its column labels. *)
Definition heatmap_z `{Sorter} (mean : list Q -> Q) (filtered : Table)
  : list (list Q) :=
  [ map (fun row => fst (snd row)) (district_levels mean filtered);
    map (fun row => snd (snd row)) (district_levels mean filtered) ].

Definition heatmap_x `{Sorter} (mean : list Q -> Q) (filtered : Table)
  : list string :=
  map fst (district_levels mean filtered).

(** ** The database preview ([Database.py]) *)

(** [SELECT * FROM youth_impact where district = 'DHARWAD'], the rows in
    table order, and [df.head()], the first five of them. *)
Definition dharwad_query (youth_impact : Table) : Table :=
  filter (fun r => String.eqb (district r) "DHARWAD") youth_impact.

Definition head {A : Type} (l : list A) : list A := firstn 5 l.

Definition database_preview (youth_impact : Table) : Table :=
  head (dharwad_query youth_impact).

(** ** Download and reload (section 6.3 and [load_data]) *)




















Section Csv.

(** The text [to_csv] writes for a float and for a timestamp, the reader's
    float conversion and [pd.to_datetime] on a text are the library's and
    are parameters. *)
Variable show_float : Q -> string.
Variable show_timestamp : Z -> string.
Variable parse_float : string -> option Q.
Variable parse_datetime : string -> Z.



















End Csv.



(** The total of one row of a two-way table, a null cell counting 0. *)
Definition Qsum (l : list Q) : Q := fold_right Qplus (0 # 1) l.

Definition row_total {C : Type} (cells : list (C * option Number)) : Q :=
  Qsum (map (fun c => match snd c with
                      | Some v => number_value v
                      | None => 0 # 1
                      end) cells).

(** ** Sample tables *)

(** A small table used by the examples below. *)
Definition sample_table : Table :=
  [ mkRecord "2024-01-01/2024-01-07" "A" "B1" "S1" 5 2 1 (12 # 10) (20 # 10) 10 (day 19723);
    mkRecord "2024-01-01/2024-01-07" "A" "B2" "S2" 4 1 0 (15 # 10) (21 # 10) 7 (day 19723);
    mkRecord "2024-01-08/2024-01-14" "A" "B1" "S1" 3 0 2 (15 # 10) (23 # 10) 6 (day 19730);
    mkRecord "2024-01-08/2024-01-14" "C" "B3" "S3" 8 3 3 (11 # 10) (14 # 10) 9 (day 19730);
    mkRecord "2024-01-15/2024-01-21" "C" "B3" "S4" 1 1 1 (10 # 10) (12 # 10) 2 (day 19737) ].

Definition sample_selection : Selection :=
  mkSelection ["A"] [] ["S1"; "S2"] 19723 19730.

Definition backwards_selection : Selection :=
  mkSelection ["A"] [] ["S1"; "S2"] 19737 19723.

(** The widest selection: nothing picked, a date range around every week
    of the sample tables. *)
Definition everything : Selection := mkSelection [] [] [] 0 30000.

(** Two rows of one school and week whose counts add up to 2^63, one more
    than an int64 holds. *)
Definition overflow_table : Table :=
  [ mkRecord "2024-01-01/2024-01-07" "A" "B1" "S1"
      9223372036854775807 9223372036854775807 9223372036854775807
      (10 # 10) (10 # 10) 9223372036854775807 (day 19723);
    mkRecord "2024-01-01/2024-01-07" "A" "B1" "S1" 1 1 1
      (10 # 10) (10 # 10) 1 (day 19723) ].

(** Two weeks and two districts, each district reporting in one week only. *)
Definition sparse_table : Table :=
  [ mkRecord "2024-01-01/2024-01-07" "A" "B1" "S1" 5 2 1 (12 # 10) (20 # 10) 10 (day 19723);
    mkRecord "2024-01-08/2024-01-14" "C" "B3" "S3" 8 3 3 (11 # 10) (14 # 10) 9 (day 19730) ].

(** Twelve schools, five of them level at 7 calls around the cut. *)
Definition school_row (name : string) (calls : Z) : MetricRecord :=
  mkRecord "2024-01-01/2024-01-07" "A" "B1" name 0 0 0 (10 # 10) (10 # 10) calls (day 19723).

Definition ranking_table : Table :=
  [ school_row "S01" 5; school_row "S02" 20; school_row "S03" 7;
    school_row "S04" 7; school_row "S05" 7; school_row "S06" 30;
    school_row "S07" 1; school_row "S08" 15; school_row "S09" 7;
    school_row "S10" 12; school_row "S11" 7; school_row "S12" 9;
    school_row "S01" 5 ].

(** Eleven schools; the first one's two rows add up to 2^63 calls. *)
Definition wrapping_ranking_table : Table :=
  [ school_row "S00" 9223372036854775807; school_row "S00" 1;
    school_row "S01" 1; school_row "S02" 2; school_row "S03" 3;
    school_row "S04" 4; school_row "S05" 5; school_row "S06" 6;
    school_row "S07" 7; school_row "S08" 8; school_row "S09" 9;
    school_row "S10" 10 ].

(** The two rows of the specification's worked example. *)
Definition worked_example : Table :=
  [ mkRecord "2024-01-01/2024-01-07" "A" "B1" "S1" 5 0 0 (12 # 10) (20 # 10) 10 (day 19723);
    mkRecord "2024-01-08/2024-01-14" "A" "B1" "S1" 3 0 0 (15 # 10) (23 # 10) 6 (day 19730) ].








(** A source row with the week label of the worked example. *)
Definition sample_source : SourceRecord :=
  mkSource "2024-01-01/2024-01-07" "A" "B1" "S1" 5 2 1 (12 # 10) (20 # 10) 10.

(** * Properties of the filter pipeline *)

Lemma isin_In x values : isin x values = true <-> In x values.
Proof.
  unfold isin. rewrite existsb_exists. split.
  - intros [y [Hy Heq]]. apply String.eqb_eq in Heq. now subst.
  - intros H. exists x. split; [assumption | apply String.eqb_refl].
Qed.

Lemma set_allows_iff values x :
  set_allows values x = true <-> values = [] \/ In x values.
Proof.
  destruct values as [|v vs].
  - simpl. split; auto.
  - change (set_allows (v :: vs) x) with (isin x (v :: vs)).
    rewrite isin_In. split; [auto | intros [H | H]; [discriminate | assumption]].
Qed.

Lemma filter_true {A : Type} (l : list A) : filter (fun _ => true) l = l.
Proof. induction l as [|a l IH]; simpl; congruence. Qed.

Lemma filter_filter {A : Type} (p q : A -> bool) (l : list A) :
  filter p (filter q l) = filter (fun x => q x && p x) l.
Proof.
  induction l as [|a l IH]; simpl; [reflexivity|].
  destruct (q a); simpl; [destruct (p a)|]; rewrite IH; reflexivity.
Qed.

(** Each conditional set filter is one row-wise selection. *)
Lemma filter_district_as_filter sel df :
  filter_district sel df = filter (fun r => set_allows (districts sel) (district r)) df.
Proof.
  unfold filter_district. destruct (districts sel); simpl truthy; cbv iota.
  - symmetry. apply filter_true.
  - reflexivity.
Qed.

Lemma filter_block_as_filter sel df :
  filter_block sel df = filter (fun r => set_allows (blocks sel) (block r)) df.
Proof.
  unfold filter_block. destruct (blocks sel); simpl truthy; cbv iota.
  - symmetry. apply filter_true.
  - reflexivity.
Qed.

Lemma filter_school_as_filter sel df :
  filter_school sel df = filter (fun r => set_allows (schools sel) (school r)) df.
Proof.
  unfold filter_school. destruct (schools sel); simpl truthy; cbv iota.
  - symmetry. apply filter_true.
  - reflexivity.
Qed.

Lemma filter_date_as_filter sel df :
  fst (filter_date sel df) = filter (date_clause sel) df.
Proof.
  unfold filter_date, date_clause.
  destruct (start_date sel >? end_date sel); simpl.
  - symmetry. apply filter_true.
  - reflexivity.
Qed.

Lemma filtered_df_as_filter sel df :
  fst (filtered_df sel df) = filter (row_selected sel) df.
Proof.
  unfold filtered_df.
  pose proof (filter_date_as_filter sel df) as Hd.
  destruct (filter_date sel df) as [t n]. simpl in Hd. simpl. subst t.
  rewrite filter_district_as_filter, filter_block_as_filter, filter_school_as_filter.
  rewrite !filter_filter. apply filter_ext. intros r.
  unfold row_selected, sets_allow. now rewrite !andb_assoc.
Qed.

Lemma spec_keeps_iff sel r :
  spec_keeps sel r = true <->
  (to_datetime (start_date sel) <= week_start r <= to_datetime (end_date sel)) /\
  (districts sel = [] \/ In (district r) (districts sel)) /\
  (blocks sel = [] \/ In (block r) (blocks sel)) /\
  (schools sel = [] \/ In (school r) (schools sel)).
Proof.
  unfold spec_keeps, sets_allow, in_date_range.
  rewrite !andb_true_iff, !set_allows_iff, !Z.leb_le. tauto.
Qed.

(** C1: with a well-formed date range, [filtered_df] is exactly the rows of
    the loaded table whose week_start lies in the closed range and whose
    district, block and school each pass their selection set, an empty set
    passing every row; the rows keep the relative order of the input. *)
Theorem filtered_df_exact sel df :
  start_date sel <= end_date sel ->
  fst (filtered_df sel df) = filter (spec_keeps sel) df /\
  (forall r, In r (fst (filtered_df sel df)) <->
     In r df /\
     (to_datetime (start_date sel) <= week_start r <= to_datetime (end_date sel)) /\
     (districts sel = [] \/ In (district r) (districts sel)) /\
     (blocks sel = [] \/ In (block r) (blocks sel)) /\
     (schools sel = [] \/ In (school r) (schools sel))).
Proof.
  intros Hrange.
  assert (Heq : fst (filtered_df sel df) = filter (spec_keeps sel) df).
  { rewrite filtered_df_as_filter. apply filter_ext. intros r.
    unfold row_selected, spec_keeps, date_clause.
    destruct (start_date sel >? end_date sel) eqn:E; [|reflexivity].
    apply Z.gtb_lt in E. lia. }
  split; [exact Heq|].
  intros r. rewrite Heq, filter_In, spec_keeps_iff. tauto.
Qed.

Lemma filtered_df_exact_witness :
  start_date sample_selection <= end_date sample_selection /\
  fst (filtered_df sample_selection sample_table) =
    filter (spec_keeps sample_selection) sample_table.
Proof.
  assert (Hrange : start_date sample_selection <= end_date sample_selection).
  { vm_compute. discriminate. }
  split; [exact Hrange|].
  exact (proj1 (filtered_df_exact sample_selection sample_table Hrange)).
Defined.

(** Only the date step can raise a notice, and it looks at the selection
    alone. *)
Lemma filtered_df_notices sel df :
  snd (filtered_df sel df) =
  if start_date sel >? end_date sel
  then [SidebarError "Start date cannot be after end date."]
  else [].
Proof.
  unfold filtered_df, filter_date.
  destruct (start_date sel >? end_date sel); reflexivity.
Qed.

(** C3: with the start date after the end date the script raises a notice
    in the sidebar and keeps running; the table is not restricted by date,
    and the district, block and school selections apply as usual. *)
Theorem filtered_df_invalid_range sel df :
  start_date sel > end_date sel ->
  dashboard (Some df) sel =
    Rendering (filter_school sel (filter_block sel (filter_district sel df)))
              [SidebarError "Start date cannot be after end date."] /\
  fst (filtered_df sel df) = filter (sets_allow sel) df.
Proof.
  intros Hbad. apply Z.gtb_gt in Hbad. split.
  - unfold dashboard, filtered_df, filter_date. rewrite Hbad. reflexivity.
  - rewrite filtered_df_as_filter. apply filter_ext. intros r.
    unfold row_selected, date_clause. now rewrite Hbad.
Qed.

Lemma filtered_df_invalid_range_witness :
  dashboard (Some sample_table) backwards_selection =
    Rendering (filter_school backwards_selection
                 (filter_block backwards_selection
                    (filter_district backwards_selection sample_table)))
              [SidebarError "Start date cannot be after end date."] /\
  fst (filtered_df backwards_selection sample_table) =
    filter (sets_allow backwards_selection) sample_table.
Proof.
  apply (filtered_df_invalid_range backwards_selection sample_table).
  vm_compute. reflexivity.
Defined.

(** C6: every row of the filtered table is a row of the input, and
    filtering the filtered table again with the same selection returns it
    unchanged, notices included.  This holds for every selection, the
    well-formed date ranges among them. *)
Theorem filtered_df_subset_idempotent sel df :
  (forall r, In r (fst (filtered_df sel df)) -> In r df) /\
  filtered_df sel (fst (filtered_df sel df)) = filtered_df sel df.
Proof.
  split.
  - intros r. rewrite filtered_df_as_filter, filter_In. tauto.
  - apply injective_projections.
    + rewrite !filtered_df_as_filter, filter_filter.
      apply filter_ext. intros r. now destruct (row_selected sel r).
    + now rewrite !filtered_df_notices.
Qed.

Lemma apply_clause_as_filter sel c df :
  apply_clause sel c df =
  filter (match c with
          | ByDate => date_clause sel
          | ByDistrict => fun r => set_allows (districts sel) (district r)
          | ByBlock => fun r => set_allows (blocks sel) (block r)
          | BySchool => fun r => set_allows (schools sel) (school r)
          end) df.
Proof.
  destruct c; simpl.
  - apply filter_date_as_filter.
  - apply filter_district_as_filter.
  - apply filter_block_as_filter.
  - apply filter_school_as_filter.
Qed.

Lemma apply_clauses_as_filter sel order df :
  apply_clauses sel order df =
  filter (fun r => forallb (fun c => clause_test sel c r) order) df.
Proof.
  unfold apply_clauses. revert df.
  induction order as [|c order IH]; intros df; simpl.
  - symmetry. apply filter_true.
  - rewrite IH, apply_clause_as_filter, filter_filter.
    apply filter_ext. intros r. destruct c; reflexivity.
Qed.

Lemma forallb_Permutation {A : Type} (p : A -> bool) (l l' : list A) :
  Permutation l l' -> forallb p l = forallb p l'.
Proof.
  induction 1; simpl.
  - reflexivity.
  - now rewrite IHPermutation.
  - destruct (p x), (p y); reflexivity.
  - congruence.
Qed.

(** C9: the four clauses test one row at a time, so running them in any
    order gives the table the script computes in its fixed order. *)
Theorem filter_clauses_any_order sel df order :
  Permutation order [ByDate; ByDistrict; ByBlock; BySchool] ->
  apply_clauses sel order df = fst (filtered_df sel df).
Proof.
  intros Hperm.
  rewrite apply_clauses_as_filter, filtered_df_as_filter.
  apply filter_ext. intros r.
  rewrite (forallb_Permutation _ _ _ Hperm). simpl.
  unfold row_selected, sets_allow. now rewrite andb_true_r, !andb_assoc.
Qed.

Lemma filter_clauses_any_order_witness :
  apply_clauses sample_selection [BySchool; ByBlock; ByDistrict; ByDate] sample_table =
  fst (filtered_df sample_selection sample_table).
Proof.
  apply (filter_clauses_any_order sample_selection sample_table
           [BySchool; ByBlock; ByDistrict; ByDate]).
  apply Permutation_sym.
  exact (Permutation_rev [ByDate; ByDistrict; ByBlock; BySchool]).
Defined.

(** * Properties of the KPI totals *)

Lemma wrap64_fits (z : Z) : fits_int64 z -> wrap64 z = z.
Proof.
  unfold fits_int64, wrap64. intros Hz.
  rewrite Z.mod_small; lia.
Qed.

Lemma wrap64_range (z : Z) : fits_int64 (wrap64 z).
Proof.
  unfold fits_int64, wrap64.
  pose proof (Z.mod_pos_bound (z + 2 ^ 63) (2 ^ 64)). lia.
Qed.

Lemma wrap64_add_l (a b : Z) : wrap64 (wrap64 a + b) = wrap64 (a + b).
Proof.
  unfold wrap64. f_equal.
  replace ((a + 2 ^ 63) mod 2 ^ 64 - 2 ^ 63 + b + 2 ^ 63)
    with ((a + 2 ^ 63) mod 2 ^ 64 + b) by lia.
  rewrite Zplus_mod_idemp_l. f_equal. lia.
Qed.

Lemma wrap64_add_r (a b : Z) : wrap64 (a + wrap64 b) = wrap64 (a + b).
Proof. rewrite (Z.add_comm a), wrap64_add_l. f_equal. lia. Qed.

Lemma wrap64_idem (z : Z) : wrap64 (wrap64 z) = wrap64 z.
Proof. apply wrap64_fits, wrap64_range. Qed.

Lemma fold_wrap64 (l : list Z) (a : Z) :
  fold_left (fun acc x => wrap64 (acc + x)) l (wrap64 a) = wrap64 (a + Zsum l).
Proof.
  revert a. induction l as [|x l IH]; intros a; simpl.
  - f_equal. lia.
  - rewrite wrap64_add_l, IH. f_equal. lia.
Qed.

(** The int64 sum of a column is its exact sum reduced to int64. *)
Lemma series_sum_wrap (l : list Z) : series_sum l = wrap64 (Zsum l).
Proof.
  unfold series_sum. change 0 with (wrap64 0) at 1.
  rewrite fold_wrap64. reflexivity.
Qed.

(** It is the exact sum whenever that fits in an int64. *)
Lemma series_sum_exact (l : list Z) :
  fits_int64 (Zsum l) -> series_sum l = Zsum l.
Proof. intros F. rewrite series_sum_wrap. now apply wrap64_fits. Qed.

Lemma Zsum_filter {A : Type} (col : A -> Z) (p : A -> bool) (l : list A) :
  Zsum (map col (filter p l)) = Zsum (map (fun r => if p r then col r else 0) l).
Proof.
  induction l as [|a l IH]; simpl; [reflexivity|].
  destruct (p a); simpl; rewrite IH; reflexivity.
Qed.

Lemma kpi_total_wrap (col : MetricRecord -> Z) (sel : Selection) (df : Table) :
  kpi_total col sel df = wrap64 (Zsum (map col (fst (filtered_df sel df)))).
Proof. unfold kpi_total. apply series_sum_wrap. Qed.

(** C10, as it fails: with two filtered rows holding 2^63-1 and 1 tutoring
    calls the headline total is -2^63, not the integer sum 2^63. *)
Lemma kpi_total_overflow :
  total_tutoring everything overflow_table = - 2 ^ 63 /\
  Zsum (map tutoring_calls (fst (filtered_df everything overflow_table))) = 2 ^ 63 /\
  total_tutoring everything overflow_table <>
  Zsum (map tutoring_calls (fst (filtered_df everything overflow_table))).
Proof.
  assert (E1 : total_tutoring everything overflow_table = - 2 ^ 63)
    by (vm_compute; reflexivity).
  assert (E2 : Zsum (map tutoring_calls (fst (filtered_df everything overflow_table)))
               = 2 ^ 63) by (vm_compute; reflexivity).
  split; [exact E1|]. split; [exact E2|].
  rewrite E1, E2. vm_compute. discriminate.
Qed.

(** C10, amended: each headline total is the sum of its column over the
    filtered rows reduced to int64, hence the integer sum itself whenever
    that sum fits in an int64; in terms of the loaded table it adds the
    column over the rows the selection keeps; with no row kept every total
    is 0. *)
Theorem kpi_totals_are_int64_sums sel df :
  let rows := fst (filtered_df sel df) in
  (total_teachers sel df = wrap64 (Zsum (map teachers_registered rows)) /\
   total_baseline sel df = wrap64 (Zsum (map baseline_assessments rows)) /\
   total_endline sel df = wrap64 (Zsum (map endline_assessments rows)) /\
   total_tutoring sel df = wrap64 (Zsum (map tutoring_calls rows))) /\
  (forall col, fits_int64 (Zsum (map col rows)) ->
     kpi_total col sel df = Zsum (map col rows)) /\
  (forall col,
     kpi_total col sel df =
     wrap64 (Zsum (map (fun r => if row_selected sel r then col r else 0) df))) /\
  (rows = [] ->
   total_teachers sel df = 0 /\ total_baseline sel df = 0 /\
   total_endline sel df = 0 /\ total_tutoring sel df = 0).
Proof.
  intros rows. subst rows.
  unfold total_teachers, total_baseline, total_endline, total_tutoring.
  split; [|split; [|split]].
  - repeat split; apply kpi_total_wrap.
  - intros col F. rewrite kpi_total_wrap. now apply wrap64_fits.
  - intros col. rewrite kpi_total_wrap, filtered_df_as_filter.
    f_equal. apply Zsum_filter.
  - intros Hempty. unfold kpi_total. rewrite Hempty. repeat split.
Qed.

(** * Properties of [groupby] *)

Section GroupByFacts.

Context {Row K : Type} {O : KeyOrder K}.

Lemma cmp_Gt_Lt (a b : K) : cmp a b = Gt -> cmp b a = Lt.
Proof.
  intros E. pose proof (cmp_antisym b a) as A. rewrite E in A. exact A.
Qed.

Lemma cmp_Lt_Gt (a b : K) : cmp a b = Lt -> cmp b a = Gt.
Proof.
  intros E. pose proof (cmp_antisym b a) as A. rewrite E in A. exact A.
Qed.

Lemma key_eqb_eq (a b : K) : key_eqb a b = true <-> a = b.
Proof.
  unfold key_eqb. split.
  - destruct (cmp a b) eqn:E; try discriminate. intros _. now apply cmp_eq.
  - intros ->. now rewrite cmp_refl.
Qed.

Lemma key_eqb_refl (a : K) : key_eqb a a = true.
Proof. now apply key_eqb_eq. Qed.

Lemma key_lt_neq (a b : K) : key_lt a b -> a <> b.
Proof.
  unfold key_lt. intros E ->. rewrite cmp_refl in E. discriminate.
Qed.

Lemma key_eq_dec (a b : K) : {a = b} + {a <> b}.
Proof.
  destruct (key_eqb a b) eqn:E.
  - left. now apply key_eqb_eq.
  - right. intros Heq. apply key_eqb_eq in Heq. congruence.
Defined.

Lemma add_to_group_keys (k : K) (r : Row) (g : list (K * list Row)) (x : K) :
  In x (map fst (add_to_group k r g)) <-> x = k \/ In x (map fst g).
Proof.
  induction g as [|[k' rs] g IH]; simpl.
  - intuition.
  - destruct (cmp k k') eqn:E; simpl.
    + apply cmp_eq in E. subst k'. intuition.
    + intuition.
    + rewrite IH. intuition.
Qed.

Lemma add_to_group_sorted (k : K) (r : Row) (g : list (K * list Row)) :
  keys_sorted g -> keys_sorted (add_to_group k r g).
Proof.
  unfold keys_sorted. induction g as [|[k' rs] g IH]; simpl; intros S.
  - repeat constructor.
  - apply StronglySorted_inv in S. destruct S as [S F].
    destruct (cmp k k') eqn:E; simpl.
    + constructor; assumption.
    + constructor.
      * constructor; assumption.
      * constructor; [exact E|].
        rewrite Forall_forall in *. intros x Hx.
        exact (cmp_trans _ _ _ E (F x Hx)).
    + constructor; [now apply IH|].
      rewrite Forall_forall in *. intros x Hx.
      apply add_to_group_keys in Hx. destruct Hx as [-> | Hx].
      * now apply cmp_Gt_Lt.
      * now apply F.
Qed.

Lemma group_of_absent (k : K) (g : list (K * list Row)) :
  ~ In k (map fst g) -> group_of k g = [].
Proof.
  induction g as [|[k' rs] g IH]; simpl; intros N; [reflexivity|].
  destruct (key_eqb k k') eqn:E.
  - apply key_eqb_eq in E. subst. exfalso. apply N. now left.
  - apply IH. intros Hin. apply N. now right.
Qed.

Lemma sorted_head_absent (k k' : K) (ks : list K) :
  key_lt k k' -> Forall (key_lt k') ks -> ~ In k (k' :: ks).
Proof.
  intros L F [Heq | Hin].
  - subst. now apply (key_lt_neq _ _ L).
  - rewrite Forall_forall in F.
    pose proof (cmp_trans _ _ _ L (F _ Hin)) as C.
    now apply (key_lt_neq _ _ C).
Qed.

Lemma group_of_add (k k0 : K) (r : Row) (g : list (K * list Row)) :
  keys_sorted g ->
  group_of k (add_to_group k0 r g) =
  if key_eqb k k0 then group_of k g ++ [r] else group_of k g.
Proof.
  unfold keys_sorted. induction g as [|[k' rs] g IH]; simpl; intros S.
  - destruct (key_eqb k k0); reflexivity.
  - apply StronglySorted_inv in S. destruct S as [S F].
    destruct (cmp k0 k') eqn:E; simpl.
    + apply cmp_eq in E. subst k'.
      destruct (key_eqb k k0); reflexivity.
    + destruct (key_eqb k k0) eqn:E0; [|reflexivity].
      apply key_eqb_eq in E0. subst k0.
      assert (A : group_of k ((k', rs) :: g) = []).
      { apply group_of_absent. simpl. now apply sorted_head_absent. }
      simpl in A. rewrite A. reflexivity.
    + rewrite (IH S).
      destruct (key_eqb k k') eqn:E1; [|reflexivity].
      destruct (key_eqb k k0) eqn:E0; [|reflexivity].
      apply key_eqb_eq in E1. apply key_eqb_eq in E0. subst.
      rewrite cmp_refl in E. discriminate.
Qed.

Lemma fold_add_sorted (key : Row -> K) (df : list Row) (g : list (K * list Row)) :
  keys_sorted g ->
  keys_sorted (fold_left (fun g r => add_to_group (key r) r g) df g).
Proof.
  revert g. induction df as [|r df IH]; simpl; intros g S; [exact S|].
  apply IH. now apply add_to_group_sorted.
Qed.

Lemma fold_add_group_of (key : Row -> K) (k : K) (df : list Row)
  (g : list (K * list Row)) :
  keys_sorted g ->
  group_of k (fold_left (fun g r => add_to_group (key r) r g) df g) =
  group_of k g ++ filter (fun r => key_eqb k (key r)) df.
Proof.
  revert g. induction df as [|r df IH]; simpl; intros g S.
  - now rewrite app_nil_r.
  - rewrite IH by now apply add_to_group_sorted.
    rewrite group_of_add by exact S.
    destruct (key_eqb k (key r)); [now rewrite <- app_assoc | reflexivity].
Qed.

Lemma fold_add_keys (key : Row -> K) (x : K) (df : list Row)
  (g : list (K * list Row)) :
  In x (map fst (fold_left (fun g r => add_to_group (key r) r g) df g)) <->
  In x (map fst g) \/ In x (map key df).
Proof.
  revert g. induction df as [|r df IH]; simpl; intros g.
  - intuition.
  - rewrite IH, add_to_group_keys. intuition.
Qed.

Lemma add_to_group_rows (k : K) (r : Row) (g : list (K * list Row)) :
  Permutation (List.concat (map snd (add_to_group k r g)))
              (r :: List.concat (map snd g)).
Proof.
  induction g as [|[k' rs] g IH]; simpl.
  - reflexivity.
  - destruct (cmp k k'); simpl.
    + rewrite <- app_assoc. simpl.
      symmetry. apply Permutation_middle.
    + reflexivity.
    + rewrite IH. symmetry. apply Permutation_middle.
Qed.

Lemma fold_add_rows (key : Row -> K) (df : list Row) (g : list (K * list Row)) :
  Permutation
    (List.concat (map snd (fold_left (fun g r => add_to_group (key r) r g) df g)))
    (List.concat (map snd g) ++ df).
Proof.
  revert g. induction df as [|r df IH]; simpl; intros g.
  - now rewrite app_nil_r.
  - rewrite IH, add_to_group_rows. simpl. apply Permutation_middle.
Qed.

Lemma In_group_of (k : K) (rs : list Row) (g : list (K * list Row)) :
  keys_sorted g -> In (k, rs) g -> group_of k g = rs.
Proof.
  unfold keys_sorted. induction g as [|[k' rs'] g IH]; simpl; intros S Hin.
  - contradiction.
  - apply StronglySorted_inv in S. destruct S as [S F].
    destruct Hin as [Heq | Hin].
    + inversion Heq; subst. now rewrite key_eqb_refl.
    + assert (L : key_lt k' k).
      { rewrite Forall_forall in F. apply F.
        change k with (fst (k, rs)). now apply in_map. }
      destruct (key_eqb k k') eqn:E.
      * apply key_eqb_eq in E. subst. now apply key_lt_neq in L.
      * now apply IH.
Qed.

(** The keys of a grouped frame are in strictly ascending order. *)
Lemma groupby_sorted (key : Row -> K) (df : list Row) :
  keys_sorted (groupby key df).
Proof. apply fold_add_sorted. constructor. Qed.

(** They are the key values that occur in the frame. *)
Lemma groupby_keys (key : Row -> K) (df : list Row) (x : K) :
  In x (map fst (groupby key df)) <-> In x (map key df).
Proof. unfold groupby. rewrite fold_add_keys. simpl. intuition. Qed.

(** Each group holds exactly the rows with its key, in frame order. *)
Lemma groupby_group (key : Row -> K) (df : list Row) (k : K) (rs : list Row) :
  In (k, rs) (groupby key df) ->
  rs = filter (fun r => key_eqb k (key r)) df.
Proof.
  intros Hin.
  rewrite <- (In_group_of k rs _ (groupby_sorted key df) Hin).
  unfold groupby. rewrite fold_add_group_of by constructor. reflexivity.
Qed.

(** Together the groups hold every row once. *)
Lemma groupby_rows (key : Row -> K) (df : list Row) :
  Permutation (List.concat (map snd (groupby key df))) df.
Proof. unfold groupby. now rewrite fold_add_rows. Qed.

Lemma sorted_keys_NoDup (ks : list K) : StronglySorted key_lt ks -> NoDup ks.
Proof.
  induction 1 as [|a l S IH F]; constructor; [|exact IH].
  intros Hin. rewrite Forall_forall in F.
  now apply (key_lt_neq _ _ (F _ Hin)).
Qed.

(** One group per distinct key. *)
Lemma groupby_length (key : Row -> K) (df : list Row)
  (dec : forall a b : K, {a = b} + {a <> b}) :
  List.length (groupby key df) = List.length (nodup dec (map key df)).
Proof.
  rewrite <- (length_map fst (groupby key df)).
  apply Permutation_length, NoDup_Permutation.
  - apply sorted_keys_NoDup, groupby_sorted.
  - apply NoDup_nodup.
  - intros x. now rewrite groupby_keys, nodup_In.
Qed.

End GroupByFacts.

Lemma Zsum_app (l l' : list Z) : Zsum (l ++ l') = Zsum l + Zsum l'.
Proof. induction l as [|x l IH]; simpl; lia. Qed.

Lemma Zsum_Permutation (l l' : list Z) : Permutation l l' -> Zsum l = Zsum l'.
Proof. induction 1; simpl; lia. Qed.

Lemma groupby_sum_keys {Row K : Type} `{KeyOrder K} (key : Row -> K)
  (col : Row -> Z) (df : list Row) :
  map fst (groupby_sum key col df) = map fst (groupby key df).
Proof. unfold groupby_sum. rewrite map_map. reflexivity. Qed.

(** The aggregated value of a key is the int64 sum of the column over
    exactly the rows that carry the key. *)
Lemma groupby_sum_value {Row K : Type} `{KeyOrder K} (key : Row -> K)
  (col : Row -> Z) (df : list Row) (k : K) (v : Z) :
  In (k, v) (groupby_sum key col df) ->
  v = wrap64 (Zsum (map col (filter (fun r => key_eqb k (key r)) df))).
Proof.
  unfold groupby_sum. rewrite in_map_iff. intros [[k' rs] [Heq Hin]].
  simpl in Heq. inversion Heq; subst.
  rewrite series_sum_wrap. now rewrite (groupby_group key df k rs Hin) at 1.
Qed.

(** The exact sums of the groups add up to the exact sum of the column. *)
Lemma Zsum_groups {Row K : Type} (col : Row -> Z) (g : list (K * list Row)) :
  Zsum (map (fun x => Zsum (map col (snd x))) g) =
  Zsum (map col (List.concat (map snd g))).
Proof.
  induction g as [|[k rs] g IH]; simpl; [reflexivity|].
  rewrite map_app, Zsum_app, IH. reflexivity.
Qed.

Lemma wrap64_Zsum_wrapped {A : Type} (f : A -> Z) (l : list A) :
  wrap64 (Zsum (map (fun x => wrap64 (f x)) l)) = wrap64 (Zsum (map f l)).
Proof.
  induction l as [|a l IH]; simpl; [reflexivity|].
  rewrite wrap64_add_l, <- wrap64_add_r, IH, wrap64_add_r. reflexivity.
Qed.

Lemma groupby_exact_total {Row K : Type} `{KeyOrder K} (key : Row -> K)
  (col : Row -> Z) (df : list Row) :
  Zsum (map (fun g => Zsum (map col (snd g))) (groupby key df)) =
  Zsum (map col df).
Proof.
  rewrite Zsum_groups.
  apply Zsum_Permutation, Permutation_map, groupby_rows.
Qed.

(** Grouping moves no value in or out: modulo 2^64 the aggregated column
    adds up to the column itself. *)
Lemma groupby_sum_total {Row K : Type} `{KeyOrder K} (key : Row -> K)
  (col : Row -> Z) (df : list Row) :
  wrap64 (Zsum (map snd (groupby_sum key col df))) = wrap64 (Zsum (map col df)).
Proof.
  unfold groupby_sum. rewrite map_map. simpl.
  rewrite (map_ext _ (fun g => wrap64 (Zsum (map col (snd g)))))
    by (intros g; apply series_sum_wrap).
  rewrite wrap64_Zsum_wrapped. f_equal. apply groupby_exact_total.
Qed.

(** The sums add up exactly when the sum of every group fits in an
    int64. *)
Lemma groupby_sum_total_exact {Row K : Type} `{KeyOrder K} (key : Row -> K)
  (col : Row -> Z) (df : list Row) :
  (forall k, fits_int64 (Zsum (map col (filter (fun r => key_eqb k (key r)) df)))) ->
  Zsum (map snd (groupby_sum key col df)) = Zsum (map col df).
Proof.
  intros F. unfold groupby_sum. rewrite map_map. simpl.
  rewrite <- (groupby_exact_total key col df).
  f_equal. apply map_ext_in. intros [k rs] Hin. simpl.
  rewrite series_sum_wrap. apply wrap64_fits.
  rewrite (groupby_group key df k rs Hin). apply F.
Qed.

Lemma Zsum_filter_bounds {A : Type} (col : A -> Z) (p : A -> bool) (l : list A) :
  (forall x, In x l -> 0 <= col x) ->
  0 <= Zsum (map col (filter p l)) <= Zsum (map col l).
Proof.
  induction l as [|a l IH]; intros Hpos; simpl; [lia|].
  assert (Ha : 0 <= col a) by (apply Hpos; now left).
  assert (Hl : forall x, In x l -> 0 <= col x) by (intros x Hx; apply Hpos; now right).
  specialize (IH Hl). destruct (p a); simpl; lia.
Qed.

Lemma counts_fit_part {A : Type} (col : A -> Z) (p : A -> bool) (l : list A) :
  counts_fit col l -> fits_int64 (Zsum (map col (filter p l))).
Proof.
  intros [Hpos Hlt]. pose proof (Zsum_filter_bounds col p l Hpos).
  unfold fits_int64. lia.
Qed.

Lemma counts_fit_all {A : Type} (col : A -> Z) (l : list A) :
  counts_fit col l -> fits_int64 (Zsum (map col l)).
Proof.
  intros [Hpos Hlt].
  pose proof (Zsum_filter_bounds col (fun _ => true) l Hpos) as B.
  rewrite filter_true in B. unfold fits_int64. lia.
Qed.

Lemma groupby_sum_length {Row K : Type} `{KeyOrder K} (key : Row -> K)
  (col : Row -> Z) (df : list Row) (dec : forall a b : K, {a = b} + {a <> b}) :
  List.length (groupby_sum key col df) = List.length (nodup dec (map key df)).
Proof.
  unfold groupby_sum. rewrite length_map. apply groupby_length.
Qed.

(** * Weekly sums *)

Lemma string_key_eqb (a b : string) : key_eqb a b = String.eqb a b.
Proof.
  destruct (String.eqb_spec a b) as [-> | N].
  - apply key_eqb_refl.
  - destruct (key_eqb a b) eqn:E; [|reflexivity].
    apply key_eqb_eq in E. contradiction.
Qed.

Lemma Z_key_eqb (a b : Z) : key_eqb a b = Z.eqb a b.
Proof.
  destruct (Z.eqb_spec a b) as [-> | N].
  - apply key_eqb_refl.
  - destruct (key_eqb a b) eqn:E; [|reflexivity].
    apply key_eqb_eq in E. contradiction.
Qed.

Lemma sorted_distinct_strict {A : Type} (col : A -> Z) (l : list A) :
  StronglySorted (fun a b => cmp (col a) (col b) <> Gt) l ->
  NoDup (map col l) ->
  StronglySorted (fun a b => col a < col b) l.
Proof.
  induction 1 as [|a l S IH F]; simpl; intros N; constructor.
  - apply IH. now inversion N.
  - inversion N as [|? ? Hnotin _]; subst.
    rewrite Forall_forall in *. intros b Hb.
    pose proof (F b Hb) as L. simpl in L.
    assert (col a <> col b).
    { intros E. apply Hnotin. rewrite E. now apply in_map. }
    change (col a <= col b) in L. lia.
Qed.

Lemma weekly_filter_eq (col : MetricRecord -> Z) (filtered : Table) (w : Z) :
  map col (filter (fun r => key_eqb w (week_start r)) filtered) =
  map col (filter (fun r => week_start r =? w) filtered).
Proof.
  f_equal. apply filter_ext. intros r. rewrite Z.eqb_sym. apply Z_key_eqb.
Qed.

(** C5, as it fails: two rows of one week holding 2^63-1 and 1 registered
    teachers give the week the value -2^63, so that the output rows add up
    to -2^63 while the input column adds up to 2^63. *)
Lemma weekly_sum_overflow :
  weekly_teachers overflow_table = [(day 19723, - 2 ^ 63)] /\
  Zsum (map snd (weekly_teachers overflow_table)) <>
  Zsum (map teachers_registered overflow_table).
Proof.
  split.
  - vm_compute. reflexivity.
  - vm_compute. discriminate.
Qed.

(** C5, amended: the weekly sum has one row per distinct week_start of its
    input, in ascending order of week_start; each row carries the sum of
    the column over that week's rows reduced to int64, and modulo 2^64 the
    rows add up to the column's total over the input.  When every week's
    sum fits in an int64 the rows carry the weeks' sums themselves and add
    up to the column's total. *)
Theorem weekly_sum_int64_spec `{Sorter} (col : MetricRecord -> Z)
  (filtered : Table) :
  let out := weekly_sum col filtered in
  let week_total w :=
    Zsum (map col (filter (fun r => week_start r =? w) filtered)) in
  List.length out = List.length (nodup Z.eq_dec (map week_start filtered)) /\
  NoDup (map fst out) /\
  (forall w, In w (map fst out) <-> In w (map week_start filtered)) /\
  StronglySorted (fun a b => fst a < fst b) out /\
  (forall w v, In (w, v) out -> v = wrap64 (week_total w)) /\
  wrap64 (Zsum (map snd out)) = wrap64 (Zsum (map col filtered)) /\
  ((forall w, fits_int64 (week_total w)) ->
   (forall w v, In (w, v) out -> v = week_total w) /\
   Zsum (map snd out) = Zsum (map col filtered)).
Proof.
  intros out week_total. subst out week_total. unfold weekly_sum.
  set (g := groupby_sum week_start col filtered).
  pose proof (sort_values_perm _ _ _ (@fst Z Z) g) as P.
  assert (N : NoDup (map fst (sort_values fst g))).
  { apply (Permutation_NoDup (Permutation_sym (Permutation_map fst P))).
    unfold g. rewrite groupby_sum_keys.
    apply sorted_keys_NoDup, groupby_sorted. }
  assert (V : forall w v, In (w, v) (sort_values fst g) ->
              v = wrap64 (Zsum (map col (filter (fun r => week_start r =? w)
                                                filtered)))).
  { intros w v Hin. apply (Permutation_in _ P) in Hin.
    rewrite (groupby_sum_value _ _ _ _ _ Hin). now rewrite weekly_filter_eq. }
  split; [|split; [|split; [|split; [|split; [|split]]]]].
  - rewrite (Permutation_length P). apply groupby_sum_length.
  - exact N.
  - intros w. split; intros Hin.
    + apply (Permutation_in _ (Permutation_map fst P)) in Hin.
      unfold g in Hin. rewrite groupby_sum_keys in Hin. now apply groupby_keys.
    + apply (Permutation_in _ (Permutation_sym (Permutation_map fst P))).
      unfold g. rewrite groupby_sum_keys. now apply groupby_keys.
  - apply sorted_distinct_strict; [apply sort_values_sorted | exact N].
  - exact V.
  - rewrite (Zsum_Permutation _ _ (Permutation_map snd P)).
    apply groupby_sum_total.
  - intros F. split.
    + intros w v Hin. rewrite (V w v Hin). apply wrap64_fits, F.
    + rewrite (Zsum_Permutation _ _ (Permutation_map snd P)).
      apply groupby_sum_total_exact. intros w.
      rewrite weekly_filter_eq. apply F.
Qed.

Lemma weekly_sum_int64_spec_witness :
  Zsum (map snd (weekly_teachers sample_table)) =
  Zsum (map teachers_registered sample_table).
Proof.
  assert (F : forall w, fits_int64
                (Zsum (map teachers_registered
                         (filter (fun r => week_start r =? w) sample_table)))).
  { intros w. apply counts_fit_part. split.
    - intros x Hin. unfold sample_table in Hin. simpl in Hin.
      repeat (destruct Hin as [<- | Hin]; [simpl; lia|]). contradiction.
    - vm_compute. reflexivity. }
  exact (proj2 (proj2 (proj2 (proj2 (proj2 (proj2 (proj2
           (weekly_sum_int64_spec teachers_registered sample_table)))))) F)).
Defined.

(** * Properties of [nlargest] *)

Section NLargestFacts.

Context {A V : Type} {O : ValueOrder V} (val : A -> V).

Lemma insert_desc_perm (x : A) (l : list A) :
  Permutation (insert_desc val x l) (x :: l).
Proof.
  induction l as [|y l IH]; simpl; [reflexivity|].
  destruct (vleb (val y) (val x)); [reflexivity|].
  rewrite IH. apply perm_swap.
Qed.

Lemma sort_desc_perm (l : list A) : Permutation (sort_desc val l) l.
Proof.
  unfold sort_desc. induction l as [|x l IH]; simpl; [reflexivity|].
  rewrite insert_desc_perm. now constructor.
Qed.

Lemma insert_desc_ranked (before : A -> A -> Prop) (x : A) (l : list A) :
  Forall (before x) l ->
  StronglySorted (ranked val before) l ->
  StronglySorted (ranked val before) (insert_desc val x l).
Proof.
  induction l as [|y l IH]; simpl; intros B S.
  - repeat constructor.
  - pose proof (StronglySorted_inv S) as [S' F].
    pose proof (Forall_inv B) as By. pose proof (Forall_inv_tail B) as Bl.
    destruct (vleb (val y) (val x)) eqn:E.
    + constructor; [exact S|]. constructor.
      * split; [exact E | intros _; exact By].
      * rewrite Forall_forall in *. intros z Hz. split.
        -- destruct (F z Hz) as [Lz _]. exact (vleb_trans _ _ _ Lz E).
        -- intros _. now apply Bl.
    + constructor; [now apply IH|].
      rewrite Forall_forall in *. intros z Hz.
      apply (Permutation_in _ (insert_desc_perm x l)) in Hz.
      destruct Hz as [<- | Hz]; [|now apply F].
      split.
      * destruct (vleb_total (val x) (val y)) as [T | T]; congruence.
      * congruence.
Qed.

(** Sorting by decreasing value keeps rows of equal value in the order the
    frame had them. *)
Lemma sort_desc_ranked (before : A -> A -> Prop) (l : list A) :
  StronglySorted before l -> StronglySorted (ranked val before) (sort_desc val l).
Proof.
  unfold sort_desc. induction 1 as [|x l S IH F]; simpl.
  - constructor.
  - apply insert_desc_ranked; [|exact IH].
    rewrite Forall_forall in *. intros z Hz. apply F.
    exact (Permutation_in _ (sort_desc_perm l) Hz).
Qed.

Lemma nlargest_length (n : nat) (l : list A) :
  List.length (nlargest n val l) = Nat.min n (List.length l).
Proof.
  unfold nlargest. rewrite length_firstn.
  now rewrite (Permutation_length (sort_desc_perm l)).
Qed.

Lemma nlargest_In (n : nat) (l : list A) (a : A) :
  In a (nlargest n val l) -> In a l.
Proof.
  unfold nlargest. intros Hin.
  apply (Permutation_in _ (sort_desc_perm l)).
  rewrite <- (firstn_skipn n (sort_desc val l)). apply in_or_app. now left.
Qed.

Lemma StronglySorted_cross (R : A -> A -> Prop) (l1 l2 : list A) (a b : A) :
  StronglySorted R (l1 ++ l2) -> In a l1 -> In b l2 -> R a b.
Proof.
  induction l1 as [|x l1 IH]; simpl; intros S Ha Hb; [contradiction|].
  apply StronglySorted_inv in S. destruct S as [S F].
  destruct Ha as [-> | Ha].
  - rewrite Forall_forall in F. apply F, in_or_app. now right.
  - now apply IH.
Qed.

(** A kept row ranks before every row that was left out. *)
Lemma nlargest_ranked (before : A -> A -> Prop) (n : nat) (l : list A) (a b : A) :
  StronglySorted before l ->
  In a (nlargest n val l) -> In b l -> ~ In b (nlargest n val l) ->
  ranked val before a b.
Proof.
  unfold nlargest. intros S Ha Hb Nb.
  apply (StronglySorted_cross _ (firstn n (sort_desc val l))
                                (skipn n (sort_desc val l))).
  - rewrite firstn_skipn. now apply sort_desc_ranked.
  - exact Ha.
  - apply (Permutation_in _ (Permutation_sym (sort_desc_perm l))) in Hb.
    rewrite <- (firstn_skipn n (sort_desc val l)) in Hb.
    apply in_app_or in Hb. tauto.
Qed.

End NLargestFacts.

Lemma StronglySorted_weaken {A : Type} (R R' : A -> A -> Prop) (l : list A) :
  (forall a b, R a b -> R' a b) -> StronglySorted R l -> StronglySorted R' l.
Proof.
  intros W. induction 1 as [|a l S IH F]; constructor; [exact IH|].
  rewrite Forall_forall in *. auto.
Qed.

Lemma StronglySorted_map_fst {K B : Type} (R : K -> K -> Prop) (l : list (K * B)) :
  StronglySorted R (map fst l) ->
  StronglySorted (fun a b => R (fst a) (fst b)) l.
Proof.
  induction l as [|x l IH]; simpl; intros S; constructor.
  - apply IH. now inversion S.
  - apply StronglySorted_inv in S. destruct S as [_ F].
    rewrite Forall_forall in *. intros y Hy. apply F. now apply in_map.
Qed.

Lemma last_In {A : Type} (l : list A) (d : A) : l <> [] -> In (last l d) l.
Proof.
  induction l as [|x l IH]; [congruence|]. intros _.
  destruct l as [|y l]; [now left|].
  right. apply IH. discriminate.
Qed.

Lemma sorted_last_max {A : Type} (col : A -> Z) (l : list A) (d a : A) :
  StronglySorted (fun x y => col x <= col y) l ->
  In a l -> col a <= col (last l d).
Proof.
  induction 1 as [|x l S IH F]; intros Hin; [contradiction|].
  destruct l as [|y l].
  - destruct Hin as [-> | []]. simpl. lia.
  - change (last (x :: y :: l) d) with (last (y :: l) d).
    destruct Hin as [<- | Hin].
    + rewrite Forall_forall in F. apply F. apply last_In. discriminate.
    + now apply IH.
Qed.

(** * Top 10 schools by tutoring calls *)

Lemma Zsum_nonneg (l : list Z) : Forall (fun v => 0 <= v) l -> 0 <= Zsum l.
Proof. induction 1; simpl; lia. Qed.

Lemma top_schools_kept `{Sorter} (filtered : Table) :
  Permutation (top_schools_tutoring filtered)
              (nlargest 10 snd (groupby_sum school tutoring_calls filtered)).
Proof. apply sort_values_perm. Qed.

Lemma nlargest_split {A V : Type} `{ValueOrder V} (n : nat) (val : A -> V)
  (l : list A) :
  Permutation (nlargest n val l ++ skipn n (sort_desc val l)) l.
Proof.
  unfold nlargest. rewrite firstn_skipn. apply sort_desc_perm.
Qed.

Lemma top_schools_NoDup `{Sorter} (filtered : Table) :
  NoDup (map fst (top_schools_tutoring filtered)).
Proof.
  set (sums := groupby_sum school tutoring_calls filtered).
  pose proof (top_schools_kept filtered) as P. fold sums in P.
  pose proof (nlargest_split 10 snd sums) as Q.
  assert (N : NoDup (map fst sums)).
  { unfold sums. rewrite groupby_sum_keys.
    apply sorted_keys_NoDup, groupby_sorted. }
  apply (Permutation_NoDup (Permutation_sym (Permutation_map fst P))).
  apply (Permutation_NoDup (Permutation_sym (Permutation_map fst Q))) in N.
  rewrite map_app in N. exact (NoDup_app_remove_r _ _ N).
Qed.

Lemma school_filter_eq (col : MetricRecord -> Z) (filtered : Table) (s : string) :
  map col (filter (fun r => key_eqb s (school r)) filtered) =
  map col (filter (fun r => String.eqb (school r) s) filtered).
Proof.
  f_equal. apply filter_ext. intros r. rewrite String.eqb_sym.
  apply string_key_eqb.
Qed.

(** C4, as it fails.  The order of schools with equal sums is the sorting
    routine's: a routine that returns an ascending permutation lists the
    four schools level at 7 calls as S03, S05, S04, S09, which is not the
    order of their names.  And the sums are int64: a school whose rows add
    up to 2^63 calls is given -2^63 and left out of the ranking, below ten
    schools with at most 10 calls. *)
Lemma top_schools_ties_and_overflow :
  @top_schools_tutoring shuffling_sorter ranking_table =
    [ ("S03", 7); ("S05", 7); ("S04", 7); ("S09", 7); ("S12", 9);
      ("S01", 10); ("S10", 12); ("S08", 15); ("S02", 20); ("S06", 30) ] /\
  String.ltb "S05" "S04" = false /\
  (10 <= nunique (map school wrapping_ranking_table))%nat /\
  In ("S00", - 2 ^ 63) (groupby_sum school tutoring_calls wrapping_ranking_table) /\
  ~ In "S00" (map fst (top_schools_tutoring wrapping_ranking_table)) /\
  Zsum (map tutoring_calls
          (filter (fun r => String.eqb (school r) "S00") wrapping_ranking_table))
    = 2 ^ 63.
Proof.
  split; [vm_compute; reflexivity|].
  split; [vm_compute; reflexivity|].
  split; [vm_compute; repeat constructor|].
  split; [vm_compute; now left|].
  split; [|vm_compute; reflexivity].
  vm_compute. intros Hin.
  repeat (destruct Hin as [E | Hin]; [discriminate E|]). exact Hin.
Qed.

(** C4, amended: on a table with at least ten distinct schools the ranking
    has exactly ten rows and no school twice; each row is a school with its
    tutoring_calls summed in int64, which is the sum itself whenever every
    school's sum fits; the rows are in ascending order of that value, so
    that the largest value of all schools comes last; no excluded school
    has a larger value than a returned one, and of two schools with equal
    values on either side of the cut the returned one has the smaller name.
    The order in which returned schools of equal value are listed is the
    sorting routine's. *)
Theorem top_schools_tutoring_int64_spec `{Sorter} (filtered : Table) :
  (10 <= nunique (map school filtered))%nat ->
  let sums := groupby_sum school tutoring_calls filtered in
  let top := top_schools_tutoring filtered in
  let school_total s :=
    Zsum (map tutoring_calls
            (filter (fun r => String.eqb (school r) s) filtered)) in
  List.length top = 10%nat /\
  NoDup (map fst top) /\
  StronglySorted (fun a b => snd a <= snd b) top /\
  (forall d b, In b sums -> snd b <= snd (last top d)) /\
  (forall a, In a top -> In a sums) /\
  (forall s, In s (map fst sums) <-> In s (map school filtered)) /\
  (forall b, In b sums -> snd b = wrap64 (school_total (fst b))) /\
  ((forall s, fits_int64 (school_total s)) ->
   forall b, In b sums -> snd b = school_total (fst b)) /\
  (forall a b, In a top -> In b sums -> ~ In b top -> snd b <= snd a) /\
  (forall a b, In a top -> In b sums -> ~ In b top -> snd a = snd b ->
     String.ltb (fst a) (fst b) = true).
Proof.
  intros Hmany sums top school_total.
  set (kept := nlargest 10 snd sums).
  assert (P : Permutation top kept) by apply sort_values_perm.
  assert (Sk : StronglySorted (fun a b => key_lt (fst a) (fst b)) sums).
  { apply StronglySorted_map_fst. unfold sums. rewrite groupby_sum_keys.
    apply groupby_sorted. }
  assert (Len : List.length top = 10%nat).
  { rewrite (Permutation_length P). unfold kept. rewrite nlargest_length.
    unfold sums. rewrite (groupby_sum_length _ _ _ string_dec).
    unfold nunique in Hmany. lia. }
  assert (Sorted : StronglySorted (fun a b => snd a <= snd b) top).
  { eapply StronglySorted_weaken; [|apply sort_values_sorted].
    intros a b L. simpl in L. now apply Z.compare_le_iff. }
  assert (Rank : forall a b, In a top -> In b sums -> ~ In b top ->
                 ranked snd (fun a b => key_lt (fst a) (fst b)) a b).
  { intros a b Ha Hb Nb. apply (nlargest_ranked snd _ 10 sums); auto.
    - exact (Permutation_in _ P Ha).
    - intros Hin. apply Nb. exact (Permutation_in _ (Permutation_sym P) Hin). }
  assert (Excl : forall a b, In a top -> In b sums -> ~ In b top -> snd b <= snd a).
  { intros a b Ha Hb Nb. destruct (Rank a b Ha Hb Nb) as [L _].
    now apply Z.leb_le in L. }
  assert (Val : forall b, In b sums -> snd b = wrap64 (school_total (fst b))).
  { intros [s v] Hin. simpl. unfold school_total.
    rewrite (groupby_sum_value _ _ _ _ _ Hin). now rewrite school_filter_eq. }
  split; [exact Len|]. split; [apply top_schools_NoDup|].
  split; [exact Sorted|].
  split; [|split; [|split; [|split; [exact Val|split; [|split; [exact Excl|]]]]]].
  - intros d b Hb.
    assert (Dec : {In b top} + {~ In b top}).
    { apply in_dec. decide equality; [apply Z.eq_dec | apply string_dec]. }
    destruct Dec as [Hin | Hout].
    + now apply sorted_last_max.
    + apply Excl; auto. apply last_In. intros E. rewrite E in Len. discriminate.
  - intros a Ha. apply (nlargest_In snd 10). exact (Permutation_in _ P Ha).
  - intros s. unfold sums. rewrite groupby_sum_keys. apply groupby_keys.
  - intros F b Hb. rewrite (Val b Hb). apply wrap64_fits, F.
  - intros a b Ha Hb Nb Heq. destruct (Rank a b Ha Hb Nb) as [_ T].
    unfold String.ltb. unfold key_lt in T. simpl in T. rewrite T; [reflexivity|].
    apply Z.leb_le. lia.
Qed.

(** * Baseline against endline levels *)

Lemma groupby_mean_keys {K : Type} `{KeyOrder K} (mean : list Q -> Q)
  (key : MetricRecord -> K) (df : Table) :
  map fst (groupby_mean mean key df) = map fst (groupby key df).
Proof. unfold groupby_mean. rewrite map_map. reflexivity. Qed.

Lemma groupby_mean_length (mean : list Q -> Q) (key : MetricRecord -> string)
  (df : Table) :
  List.length (groupby_mean mean key df) = nunique (map key df).
Proof.
  unfold groupby_mean, nunique. rewrite length_map. apply groupby_length.
Qed.

(** The aggregated levels of a key are the means over exactly the rows that
    carry the key. *)
Lemma groupby_mean_value (mean : list Q -> Q) (key : MetricRecord -> string)
  (df : Table) (k : string) (m : Q * Q) :
  In (k, m) (groupby_mean mean key df) ->
  let rows := filter (fun r => String.eqb k (key r)) df in
  m = (mean (map baseline_average_level rows),
       mean (map endline_average_level rows)).
Proof.
  unfold groupby_mean. rewrite in_map_iff. intros [[k' rs] [Heq Hin]].
  simpl in Heq. inversion Heq; subst. simpl.
  rewrite (groupby_group key df k rs Hin).
  now rewrite (filter_ext _ _ (fun r => string_key_eqb k (key r))).
Qed.

Lemma nlargest_NoDup {A V B : Type} `{ValueOrder V} (n : nat) (val : A -> V)
  (key : A -> B) (l : list A) :
  NoDup (map key l) -> NoDup (map key (nlargest n val l)).
Proof.
  intros N.
  apply (Permutation_NoDup
           (Permutation_sym (Permutation_map key (nlargest_split n val l)))) in N.
  rewrite map_app in N. exact (NoDup_app_remove_r _ _ N).
Qed.

Lemma nlargest_all {A V : Type} `{ValueOrder V} (n : nat) (val : A -> V)
  (l : list A) (a : A) :
  (List.length l <= n)%nat -> In a l -> In a (nlargest n val l).
Proof.
  intros Hlen Hin. unfold nlargest. rewrite firstn_all2.
  - exact (Permutation_in _ (Permutation_sym (sort_desc_perm val l)) Hin).
  - now rewrite (Permutation_length (sort_desc_perm val l)).
Qed.

(** C8: the school-level comparison keeps 20 of the per-school rows, or all
    of them when there are at most 20; the per-school rows are one per
    school of the filtered table, and the comparison lists no school twice;
    every row it keeps is a school's pair of means, and no school it leaves
    out has a larger mean baseline level than one it keeps.  The
    district-level and block-level comparisons have one row for every
    district and block of the filtered table. *)
Theorem level_df_school_top20 (mean : list Q -> Q) (filtered : Table) :
  let groups := groupby_mean mean school filtered in
  let shown := level_df mean School filtered in
  List.length shown = Nat.min 20 (nunique (map school filtered)) /\
  NoDup (map fst shown) /\
  (NoDup (map fst groups) /\
   forall s, In s (map fst groups) <-> In s (map school filtered)) /\
  (forall row, In row shown ->
     In row groups /\
     let rows := filter (fun r => String.eqb (fst row) (school r)) filtered in
     snd row = (mean (map baseline_average_level rows),
                mean (map endline_average_level rows))) /\
  ((nunique (map school filtered) <= 20)%nat ->
   forall row, In row groups -> In row shown) /\
  (forall a b, In a shown -> In b groups -> ~ In b shown ->
     (fst (snd b) <= fst (snd a))%Q) /\
  (List.length (level_df mean District filtered) = nunique (map district filtered) /\
   NoDup (map fst (level_df mean District filtered)) /\
   forall d, In d (map district filtered) <->
             In d (map fst (level_df mean District filtered))) /\
  (List.length (level_df mean Block filtered) = nunique (map block filtered) /\
   NoDup (map fst (level_df mean Block filtered)) /\
   forall b, In b (map block filtered) <->
             In b (map fst (level_df mean Block filtered))).
Proof.
  intros groups shown. unfold shown, groups. simpl level_df.
  assert (N : forall key : MetricRecord -> string,
              NoDup (map fst (groupby_mean mean key filtered))).
  { intros key. rewrite groupby_mean_keys.
    apply sorted_keys_NoDup, groupby_sorted. }
  split; [|split; [|split; [|split; [|split; [|split; [|split]]]]]].
  - rewrite nlargest_length. now rewrite groupby_mean_length.
  - apply nlargest_NoDup, N.
  - split; [apply N|]. intros s. now rewrite groupby_mean_keys, groupby_keys.
  - intros [k m] Hin. apply nlargest_In in Hin. split; [exact Hin|].
    exact (groupby_mean_value _ _ _ _ _ Hin).
  - intros Hfew row Hin. apply nlargest_all; [|exact Hin].
    now rewrite groupby_mean_length.
  - intros a b Ha Hb Nb.
    assert (S : StronglySorted (fun x y : string * (Q * Q) => key_lt (fst x) (fst y))
                               (groupby_mean mean school filtered)).
    { apply StronglySorted_map_fst. rewrite groupby_mean_keys.
      apply groupby_sorted. }
    destruct (nlargest_ranked _ _ 20 _ a b S Ha Hb Nb) as [L _].
    now apply Qle_bool_iff in L.
  - split; [apply groupby_mean_length|]. split; [apply N|].
    intros d. now rewrite groupby_mean_keys, groupby_keys.
  - split; [apply groupby_mean_length|]. split; [apply N|].
    intros b. now rewrite groupby_mean_keys, groupby_keys.
Qed.

(** * Download and reload *)










Section CsvFacts.

Variable show_float : Q -> string.
Variable show_timestamp : Z -> string.
Variable parse_float : string -> option Q.
Variable parse_datetime : string -> Z.






End CsvFacts.








Section PivotFacts.

Context {R C : Type} {OR : KeyOrder R} {OC : KeyOrder C}.

Lemma key_eqb_sym {K : Type} `{KeyOrder K} (a b : K) : key_eqb a b = key_eqb b a.
Proof.
  destruct (key_eqb a b) eqn:E1, (key_eqb b a) eqn:E2; try reflexivity.
  - apply key_eqb_eq in E1. subst. rewrite key_eqb_refl in E2. discriminate.
  - apply key_eqb_eq in E2. subst. rewrite key_eqb_refl in E1. discriminate.
Qed.

Lemma pair_key_eqb (a a' : R) (b b' : C) :
  key_eqb (a, b) (a', b') = key_eqb a a' && key_eqb b b'.
Proof.
  destruct (key_eqb a a') eqn:E1; simpl.
  - apply key_eqb_eq in E1. subst.
    destruct (key_eqb b b') eqn:E2.
    + apply key_eqb_eq in E2. subst. apply key_eqb_refl.
    + destruct (key_eqb (a', b) (a', b')) eqn:E3; [|reflexivity].
      apply key_eqb_eq in E3. inversion E3; subst.
      rewrite key_eqb_refl in E2. discriminate.
  - destruct (key_eqb (a, b) (a', b')) eqn:E3; [|reflexivity].
    apply key_eqb_eq in E3. inversion E3; subst.
    rewrite key_eqb_refl in E1. discriminate.
Qed.

Lemma find_key_map {K B : Type} `{KeyOrder K} (f : K -> B) (l : list K) (k : K) :
  In k l ->
  find (fun row => key_eqb (fst row) k) (map (fun x => (x, f x)) l) = Some (k, f k).
Proof.
  induction l as [|x l IH]; simpl; intros Hin; [contradiction|].
  destruct (key_eqb x k) eqn:E.
  - apply key_eqb_eq in E. now subst.
  - destruct Hin as [-> | Hin]; [|now apply IH].
    rewrite key_eqb_refl in E. discriminate.
Qed.

Lemma find_key_absent {K B : Type} `{KeyOrder K} (l : list (K * B)) (k : K) :
  ~ In k (map fst l) -> find (fun e => key_eqb (fst e) k) l = None.
Proof.
  induction l as [|[k' b] l IH]; simpl; intros N; [reflexivity|].
  destruct (key_eqb k' k) eqn:E.
  - apply key_eqb_eq in E. subst. exfalso. apply N. now left.
  - apply IH. intros Hin. apply N. now right.
Qed.

Lemma find_key_present {K B : Type} `{KeyOrder K} (l : list (K * B)) (k : K) (b : B) :
  NoDup (map fst l) -> In (k, b) l ->
  find (fun e => key_eqb (fst e) k) l = Some (k, b).
Proof.
  induction l as [|[k' b'] l IH]; simpl; intros N Hin; [contradiction|].
  inversion N as [|? ? Hnotin N']; subst.
  destruct Hin as [Heq | Hin].
  - inversion Heq; subst. now rewrite key_eqb_refl.
  - destruct (key_eqb k' k) eqn:E.
    + apply key_eqb_eq in E. subst. exfalso. apply Hnotin.
      change k with (fst (k, b)). now apply in_map.
    + now apply IH.
Qed.

Lemma In_pair_keys {V : Type} (entries : list ((R * C) * V)) (r : R) (c : C) :
  In (r, c) (map fst entries) ->
  In r (map (fun e => fst (fst e)) entries) /\
  In c (map (fun e => snd (fst e)) entries).
Proof.
  rewrite !in_map_iff. intros [e [He Hin]].
  split; exists e; rewrite He; auto.
Qed.

(** Every index value meets every column value in the reshaped table. *)
Lemma unstack_cell (entries : list ((R * C) * Number)) (r : R) (c : C) :
  In r (map (fun e => fst (fst e)) entries) ->
  In c (map (fun e => snd (fst e)) entries) ->
  cell_at (unstack entries) r c =
  Some (option_map
          (promotion
             (any_gap entries
                (map fst (groupby (fun e => fst (fst e)) entries))
                (map fst (groupby (fun e => snd (fst e)) entries))))
          (lookup_entry entries r c)).
Proof.
  intros Hr Hc. unfold cell_at, unstack.
  rewrite find_key_map by now apply groupby_keys.
  simpl. rewrite find_key_map by now apply groupby_keys.
  reflexivity.
Qed.

(** Outside the index or the columns there is no cell at all. *)
Lemma unstack_no_cell (entries : list ((R * C) * Number)) (r : R) (c : C) :
  ~ In r (map (fun e => fst (fst e)) entries) ->
  cell_at (unstack entries) r c = None.
Proof.
  intros Nr. unfold cell_at, unstack.
  rewrite find_key_absent; [reflexivity|].
  rewrite map_map. simpl. rewrite map_id.
  intros Hin. apply Nr. exact (proj1 (groupby_keys _ _ _) Hin).
Qed.

Lemma lookup_entry_present {V : Type} (entries : list ((R * C) * V))
  (r : R) (c : C) (v : V) :
  NoDup (map fst entries) -> In ((r, c), v) entries ->
  lookup_entry entries r c = Some v.
Proof.
  intros N Hin. unfold lookup_entry.
  now rewrite (find_key_present entries (r, c) v N Hin).
Qed.

Lemma lookup_entry_absent {V : Type} (entries : list ((R * C) * V))
  (r : R) (c : C) :
  ~ In (r, c) (map fst entries) -> lookup_entry entries r c = None.
Proof.
  intros N. unfold lookup_entry. now rewrite find_key_absent.
Qed.

Lemma has_duplicates_NoDup {K : Type} `{KeyOrder K} (l : list K) :
  NoDup l -> has_duplicates l = false.
Proof.
  induction 1 as [|x l Hnotin N IH]; simpl; [reflexivity|].
  rewrite IH, orb_false_r.
  destruct (existsb (key_eqb x) l) eqn:E; [|reflexivity].
  apply existsb_exists in E. destruct E as [y [Hy Heq]].
  apply key_eqb_eq in Heq. now subst.
Qed.

Lemma existsb_in_cell (index : MetricRecord -> R) (columns : MetricRecord -> C)
  (df : Table) (r : R) (c : C) :
  existsb (in_cell index columns r c) df = true <->
  In (r, c) (map (fun x => (index x, columns x)) df).
Proof.
  rewrite existsb_exists, in_map_iff. unfold in_cell.
  split; intros [x [H1 H2]]; exists x.
  - apply andb_true_iff in H2. destruct H2 as [E1 E2].
    apply key_eqb_eq in E1. apply key_eqb_eq in E2. subst. auto.
  - inversion H1; subst. now rewrite !key_eqb_refl.
Qed.

(** A gap of the table: an index value and a column value of it that no
    row has together. *)
Lemma sparse_spec (index : MetricRecord -> R) (columns : MetricRecord -> C)
  (df : Table) :
  sparse index columns df = true <->
  exists r c, In r (map index df) /\ In c (map columns df) /\
              existsb (in_cell index columns r c) df = false.
Proof.
  unfold sparse. rewrite existsb_exists. split.
  - intros [x [Hx E]]. apply existsb_exists in E. destruct E as [y [Hy E]].
    apply negb_true_iff in E.
    exists (index x), (columns y). repeat split; try exact E;
      apply in_map_iff; eauto.
  - intros [r [c [Hr [Hc E]]]].
    apply in_map_iff in Hr. destruct Hr as [x [<- Hx]].
    apply in_map_iff in Hc. destruct Hc as [y [<- Hy]].
    exists x. split; [exact Hx|]. apply existsb_exists.
    exists y. split; [exact Hy|]. now apply negb_true_iff.
Qed.

Lemma any_gap_spec {V : Type} (entries : list ((R * C) * V))
  (index : list R) (columns : list C) :
  any_gap entries index columns = true <->
  exists r c, In r index /\ In c columns /\ lookup_entry entries r c = None.
Proof.
  unfold any_gap. rewrite existsb_exists. split.
  - intros [r [Hr E]]. apply existsb_exists in E. destruct E as [c [Hc E]].
    exists r, c. repeat split; try assumption.
    now destruct (lookup_entry entries r c).
  - intros [r [c [Hr [Hc E]]]]. exists r. split; [exact Hr|].
    apply existsb_exists. exists c. split; [exact Hc|]. now rewrite E.
Qed.

Section Aggregated.

Context {V : Type} (index : MetricRecord -> R) (columns : MetricRecord -> C)
        (agg : list MetricRecord -> V) (df : Table)
        (entries : list ((R * C) * V)).

Hypothesis entries_grouped :
  Permutation entries
    (map (fun g => (fst g, agg (snd g)))
         (groupby (fun x => (index x, columns x)) df)).

Lemma pair_sums_keys (k : R * C) :
  In k (map fst entries) <-> In k (map (fun x => (index x, columns x)) df).
Proof.
  pose proof (Permutation_map fst entries_grouped) as P.
  rewrite map_map in P. simpl in P.
  split; intros Hin.
  - apply (Permutation_in _ P) in Hin.
    exact (proj1 (groupby_keys _ _ _) Hin).
  - apply (Permutation_in _ (Permutation_sym P)).
    exact (proj2 (groupby_keys _ _ _) Hin).
Qed.

Lemma pair_sums_NoDup : NoDup (map fst entries).
Proof.
  pose proof (Permutation_map fst entries_grouped) as P.
  rewrite map_map in P. simpl in P.
  apply (Permutation_NoDup (Permutation_sym P)).
  apply sorted_keys_NoDup, groupby_sorted.
Qed.

Lemma pair_sums_index (r : R) :
  In r (map (fun e => fst (fst e)) entries) <-> In r (map index df).
Proof.
  split; intros Hin.
  - apply in_map_iff in Hin. destruct Hin as [[[r' c] v] [Heq Hin]].
    simpl in Heq. subst r'.
    assert (K : In (r, c) (map fst entries)).
    { apply in_map_iff. now exists ((r, c), v). }
    apply pair_sums_keys, in_map_iff in K. destruct K as [x [Hx Hin']].
    inversion Hx; subst. now apply in_map.
  - apply in_map_iff in Hin. destruct Hin as [x [<- Hx]].
    apply (In_pair_keys entries (index x) (columns x)), pair_sums_keys.
    apply in_map_iff. now exists x.
Qed.

Lemma pair_sums_columns (c : C) :
  In c (map (fun e => snd (fst e)) entries) <-> In c (map columns df).
Proof.
  split; intros Hin.
  - apply in_map_iff in Hin. destruct Hin as [[[r c'] v] [Heq Hin]].
    simpl in Heq. subst c'.
    assert (K : In (r, c) (map fst entries)).
    { apply in_map_iff. now exists ((r, c), v). }
    apply pair_sums_keys, in_map_iff in K. destruct K as [x [Hx Hin']].
    inversion Hx; subst. now apply in_map.
  - apply in_map_iff in Hin. destruct Hin as [x [<- Hx]].
    apply (In_pair_keys entries (index x) (columns x)), pair_sums_keys.
    apply in_map_iff. now exists x.
Qed.

(** The entries the two pivots are reshaped from: one per pair of field
    values that occurs, carrying the aggregate of the rows with that
    pair. *)
Lemma pair_sums_lookup (r : R) (c : C) :
  lookup_entry entries r c =
  if existsb (in_cell index columns r c) df
  then Some (agg (filter (in_cell index columns r c) df))
  else None.
Proof.
  destruct (existsb (in_cell index columns r c) df) eqn:E.
  - apply existsb_in_cell, pair_sums_keys in E.
    apply in_map_iff in E. destruct E as [[k v] [Hk Hin]]. simpl in Hk. subst k.
    rewrite (lookup_entry_present _ _ _ _ pair_sums_NoDup Hin). f_equal.
    apply (Permutation_in _ entries_grouped) in Hin.
    apply in_map_iff in Hin. destruct Hin as [[k rs] [Heq Hin]].
    simpl in Heq. inversion Heq; subst k v. f_equal.
    rewrite (groupby_group _ _ _ _ Hin).
    apply filter_ext. intros x.
    unfold in_cell. rewrite key_eqb_sym. apply pair_key_eqb.
  - apply lookup_entry_absent. rewrite pair_sums_keys, <- existsb_in_cell.
    congruence.
Qed.

(** The reshaped frame has a gap exactly when the table has one. *)
Lemma pair_sums_gap :
  any_gap entries
    (map fst (groupby (fun e => fst (fst e)) entries))
    (map fst (groupby (fun e => snd (fst e)) entries)) =
  sparse index columns df.
Proof.
  apply eq_true_iff_eq. rewrite any_gap_spec, sparse_spec.
  split; intros [r [c [Hr [Hc E]]]]; exists r, c.
  - apply groupby_keys, pair_sums_index in Hr.
    apply groupby_keys, pair_sums_columns in Hc.
    rewrite pair_sums_lookup in E.
    repeat split; try assumption.
    now destruct (existsb (in_cell index columns r c) df).
  - repeat split.
    + now apply groupby_keys, pair_sums_index.
    + now apply groupby_keys, pair_sums_columns.
    + rewrite pair_sums_lookup. now rewrite E.
Qed.

End Aggregated.

(** A cell of the reshaped aggregate: the aggregate of the rows with that
    index and column value, as a float64 when the table has a gap, and null
    when there is no such row. *)
Lemma pivot_cell (index : MetricRecord -> R) (columns : MetricRecord -> C)
  (agg : list MetricRecord -> Number) (df : Table)
  (entries : list ((R * C) * Number)) (r : R) (c : C) :
  Permutation entries
    (map (fun g => (fst g, agg (snd g)))
         (groupby (fun x => (index x, columns x)) df)) ->
  In r (map index df) -> In c (map columns df) ->
  cell_at (unstack entries) r c =
  Some (if existsb (in_cell index columns r c) df
        then Some (promotion (sparse index columns df)
                             (agg (filter (in_cell index columns r c) df)))
        else None).
Proof.
  intros P Hr Hc.
  rewrite unstack_cell.
  - rewrite (pair_sums_gap index columns agg df entries P).
    rewrite (pair_sums_lookup index columns agg df entries P).
    now destruct (existsb (in_cell index columns r c) df).
  - now apply (pair_sums_index index columns agg df entries P).
  - now apply (pair_sums_columns index columns agg df entries P).
Qed.

End PivotFacts.

(** X10: the Pivot Table Explorer.  A values field that is not a number
    (a text column, or week_start) gives the warning.  With a numeric
    values field and a filtered table that has rows, a field chosen twice
    among index, columns and values makes [pd.pivot_table] raise; otherwise
    the table is shown, and each of its cells holds the sum of the values
    over the rows with that index and column value, as a float64 when some
    index value and column value share no row, and is null where there is
    no such row. *)
Lemma pivot_table_cell (float_sum : list Q -> Q)
  (pivot_index pivot_columns pivot_values : Column) (filtered : Table) :
  let index := key_of (key_column pivot_index) in
  let columns := key_of (key_column pivot_columns) in
  let OI := key_order (key_column pivot_index) in
  let OC := key_order (key_column pivot_columns) in
  (issubdtype_number (dtype pivot_values) = false ->
   pivot_data float_sum pivot_index pivot_columns pivot_values filtered =
   PivotWarning (Warning "Please select a numeric field for 'Values Field'.")) /\
  (forall values, as_numeric pivot_values = Some values -> filtered <> [] ->
     numeric_name values = pivot_values /\
     issubdtype_number (dtype pivot_values) = true /\
     (names_clash pivot_index pivot_columns pivot_values = true ->
      pivot_data float_sum pivot_index pivot_columns pivot_values filtered =
      PivotRaises) /\
     (names_clash pivot_index pivot_columns pivot_values = false ->
      exists t,
        pivot_data float_sum pivot_index pivot_columns pivot_values filtered =
        PivotShown t /\
        forall r c, In r (map index filtered) -> In c (map columns filtered) ->
          @cell_at _ _ OI OC t r c =
          Some (if existsb (@in_cell _ _ OI OC index columns r c) filtered
                then Some (promotion
                             (@sparse _ _ OI OC index columns filtered)
                             (sum_values float_sum values
                                (filter (@in_cell _ _ OI OC index columns r c)
                                        filtered)))
                else None))).
Proof.
  intros index columns OI OC. split.
  - intros E. unfold pivot_data. now rewrite E.
  - intros values Hv _.
    assert (Hname : numeric_name values = pivot_values).
    { destruct pivot_values; simpl in Hv; inversion Hv; reflexivity. }
    assert (Hnum : issubdtype_number (dtype pivot_values) = true).
    { destruct pivot_values; simpl in Hv; try discriminate; reflexivity. }
    split; [exact Hname|]. split; [exact Hnum|].
    unfold pivot_data, pivot_table. rewrite Hnum, Hv, Hname. simpl negb. cbv iota.
    split; intros E; rewrite E.
    + reflexivity.
    + eexists. split; [reflexivity|].
      intros r c Hr Hc.
      apply (@pivot_cell _ _ OI OC index columns
               (sum_values float_sum values) filtered _ r c
               (Permutation_refl _) Hr Hc).
Qed.

Lemma find_map_row {R B : Type} `{KeyOrder R} (F : R * B -> R * B)
  (l : list (R * B)) (r : R) :
  (forall row, fst (F row) = fst row) ->
  find (fun row => key_eqb (fst row) r) (map F l) =
  option_map F (find (fun row => key_eqb (fst row) r) l).
Proof.
  intros Hfst. induction l as [|x l IH]; simpl; [reflexivity|].
  rewrite Hfst. destruct (key_eqb (fst x) r); [reflexivity | exact IH].
Qed.

Lemma cell_at_fillna {R C : Type} `{KeyOrder R} `{KeyOrder C} (v : Z)
  (t : Table2D R C) (r : R) (c : C) :
  cell_at (fillna v t) r c =
  option_map (fun x => Some (match x with
                             | Some y => y
                             | None => FloatNum (inject_Z v)
                             end))
             (cell_at t r c).
Proof.
  unfold cell_at, fillna.
  rewrite (find_map_row _ t r) by reflexivity.
  destruct (find (fun row => key_eqb (fst row) r) t) as [row|]; simpl;
    [|reflexivity].
  rewrite (find_map_row _ (snd row) c) by reflexivity.
  now destruct (find (fun x => key_eqb (fst x) c) (snd row)) as [[c' x]|].
Qed.

Lemma existsb_false_filter {A : Type} (p : A -> bool) (l : list A) :
  existsb p l = false -> filter p l = [].
Proof.
  induction l as [|a l IH]; simpl; [reflexivity|].
  destruct (p a); simpl; [discriminate | exact IH].
Qed.

(** The entries of the pivot of tab 1, as numbers, are the int64 sums of the
    groups. *)
Lemma group_data_entries `{Sorter} (group_option : Dimension) (filtered : Table) :
  Permutation
    (map (fun e : Z * string * Z => (fst e, IntNum (snd e)))
         (group_data group_option filtered))
    (map (fun g => (fst g, IntNum (series_sum (map teachers_registered (snd g)))))
         (groupby (fun x => (week_start x, dimension_column group_option x))
                  filtered)).
Proof.
  unfold group_data.
  eapply Permutation_trans; [apply Permutation_map, sort_values_perm|].
  unfold groupby_sum. rewrite map_map. reflexivity.
Qed.

Lemma group_data_NoDup `{Sorter} (group_option : Dimension) (filtered : Table) :
  NoDup (map fst (group_data group_option filtered)).
Proof.
  unfold group_data.
  apply (Permutation_NoDup
           (Permutation_sym (Permutation_map fst (sort_values_perm _ _ _ _ _)))).
  rewrite groupby_sum_keys. apply sorted_keys_NoDup, groupby_sorted.
Qed.

(** X11: The pivot of tab 1 reshapes without error.  Each of its cells holds
    the int64 sum of teachers_registered over the rows of that week and
    group: as an int64 when every week has a row for every group, and
    otherwise, the whole frame being float64, as the float64 of that int64,
    which is the float 0 where the week and group have no row. *)
Lemma pivot_df_cell `{Sorter} (group_option : Dimension) (filtered : Table)
  (w : Z) (d : string) :
  In w (map week_start filtered) ->
  In d (map (dimension_column group_option) filtered) ->
  exists t,
    pivot_df group_option filtered = Some t /\
    cell_at t w d =
    Some (Some (frame_number
                  (sparse week_start (dimension_column group_option) filtered)
                  (series_sum
                     (map teachers_registered
                        (filter (in_cell week_start (dimension_column group_option) w d)
                                filtered))))).
Proof.
  intros Hw Hd. unfold pivot_df, pivot.
  set (dim := dimension_column group_option) in *.
  rewrite (has_duplicates_NoDup _ (group_data_NoDup group_option filtered)).
  simpl. eexists. split; [reflexivity|].
  rewrite cell_at_fillna.
  rewrite (pivot_cell week_start dim
             (fun rows => IntNum (series_sum (map teachers_registered rows)))
             filtered _ w d (group_data_entries group_option filtered) Hw Hd).
  simpl. f_equal. f_equal.
  destruct (existsb (in_cell week_start dim w d) filtered) eqn:E.
  - now destruct (sparse week_start dim filtered).
  - rewrite (existsb_false_filter _ _ E).
    assert (S : sparse week_start dim filtered = true).
    { apply sparse_spec. now exists w, d. }
    rewrite S. reflexivity.
Qed.

(** C2: on a table where district A reports only in the first week and
    district C only in the second, the Pivot Table Explorer shows the two
    combinations that match no row as null cells, not as 0; the cells that
    match a row hold its sum.  The pivot of tab 1, which fills the gaps,
    shows 0 at the same two positions. *)
Theorem pivot_data_missing_cell_null (float_sum : list Q -> Q) :
  pivot_data float_sum ColWeekStart ColDistrict ColTeachersRegistered sparse_table =
    PivotShown [ (day 19723, [("A", Some (FloatNum (5 # 1))); ("C", None)]);
                 (day 19730, [("A", None); ("C", Some (FloatNum (8 # 1)))]) ] /\
  (exists t,
     pivot_table float_sum ColWeekStart ColDistrict
       (IntValues ColTeachersRegistered teachers_registered) sparse_table = Some t /\
     cell_at t (day 19723) "C" = Some None /\
     cell_at t (day 19723) "C" <> Some (Some (IntNum 0)) /\
     cell_at t (day 19723) "C" <> Some (Some (FloatNum (0 # 1)))) /\
  pivot_df District sparse_table =
    Some [ (day 19723, [("A", Some (FloatNum (5 # 1))); ("C", Some (FloatNum (0 # 1)))]);
           (day 19730, [("A", Some (FloatNum (0 # 1))); ("C", Some (FloatNum (8 # 1)))]) ].
Proof.
  split; [vm_compute; reflexivity|]. split; [|vm_compute; reflexivity].
  eexists. split; [vm_compute; reflexivity|].
  repeat split; try (vm_compute; reflexivity); vm_compute; discriminate.
Qed.

Example top_schools_tutoring_ranking :
  top_schools_tutoring ranking_table =
  [ ("S03", 7); ("S04", 7); ("S05", 7); ("S09", 7); ("S12", 9);
    ("S01", 10); ("S10", 12); ("S08", 15); ("S02", 20); ("S06", 30) ].
Proof. vm_compute. reflexivity. Qed.

Lemma top_schools_tutoring_int64_spec_witness :
  (10 <= nunique (map school ranking_table))%nat /\
  List.length (top_schools_tutoring ranking_table) = 10%nat.
Proof.
  assert (Hmany : (10 <= nunique (map school ranking_table))%nat).
  { vm_compute. repeat constructor. }
  split; [exact Hmany|].
  exact (proj1 (top_schools_tutoring_int64_spec ranking_table Hmany)).
Defined.

Example weekly_tutoring_calls_worked_example :
  weekly_tutoring_calls worked_example = [(day 19723, 10); (day 19730, 6)].
Proof. vm_compute. reflexivity. Qed.

Example weekly_teachers_sample :
  weekly_teachers sample_table =
  [(day 19723, 9); (day 19730, 11); (day 19737, 1)].
Proof. vm_compute. reflexivity. Qed.

Example filtered_df_sample :
  map school (fst (filtered_df sample_selection sample_table)) = ["S1"; "S2"; "S1"] /\
  total_tutoring sample_selection sample_table = 23.
Proof. vm_compute. split; reflexivity. Qed.

(** * Order of equal sums under the insertion routine *)

Section StableSort.

Context {A K : Type} {O : KeyOrder K} (col : A -> K).

Lemma insert_asc_stable (before : A -> A -> Prop) (x : A) (l : list A) :
  Forall (before x) l ->
  StronglySorted (asc_ranked col before) l ->
  StronglySorted (asc_ranked col before) (insert_asc col x l).
Proof.
  induction l as [|y l IH]; simpl; intros B S.
  - repeat constructor.
  - pose proof (StronglySorted_inv S) as [S' F].
    pose proof (Forall_inv B) as By. pose proof (Forall_inv_tail B) as Bl.
    assert (Hle : cmp (col x) (col y) <> Gt ->
                  StronglySorted (asc_ranked col before) (x :: y :: l)).
    { intros L. constructor; [exact S|]. constructor.
      - split; [exact L | intros _; exact By].
      - rewrite Forall_forall in *. intros z Hz. split.
        + destruct (F z Hz) as [Lz _]. exact (cmp_le_trans _ _ _ L Lz).
        + intros _. now apply Bl. }
    destruct (cmp (col x) (col y)) eqn:E.
    + apply Hle. discriminate.
    + apply Hle. discriminate.
    + constructor; [now apply IH|].
      rewrite Forall_forall in *. intros z Hz.
      apply (Permutation_in _ (insert_asc_perm col x l)) in Hz.
      destruct Hz as [<- | Hz]; [|now apply F].
      pose proof (cmp_antisym (col y) (col x)) as An. rewrite E in An.
      simpl in An. split; rewrite An; discriminate.
Qed.

Lemma insertion_sort_stable (before : A -> A -> Prop) (l : list A) :
  StronglySorted before l ->
  StronglySorted (asc_ranked col before) (insertion_sort A K O col l).
Proof.
  unfold insertion_sort. induction 1 as [|x l S IH F]; simpl.
  - constructor.
  - apply insert_asc_stable; [|exact IH].
    rewrite Forall_forall in *. intros z Hz. apply F.
    exact (Permutation_in _ (insertion_sort_perm A K O col l) Hz).
Qed.

End StableSort.

Lemma StronglySorted_firstn {A : Type} (R : A -> A -> Prop) (n : nat) (l : list A) :
  StronglySorted R l -> StronglySorted R (firstn n l).
Proof.
  intros S. revert n. induction S as [|a l S IH F]; intros [|n]; simpl;
    try constructor.
  - apply IH.
  - rewrite Forall_forall in *. intros x Hx. apply F.
    rewrite <- (firstn_skipn n l). apply in_or_app. now left.
Qed.

(** With the insertion routine the ranking lists schools of equal sums in
    ascending order of name. *)
Remark top_schools_tutoring_ties_by_name (filtered : Table) :
  StronglySorted
    (fun a b => snd a < snd b \/
                (snd a = snd b /\ String.ltb (fst a) (fst b) = true))
    (@top_schools_tutoring insertion_sorter filtered).
Proof.
  unfold top_schools_tutoring. simpl sort_values.
  set (sums := groupby_sum school tutoring_calls filtered).
  assert (Sk : StronglySorted (fun a b : string * Z => key_lt (fst a) (fst b)) sums).
  { apply StronglySorted_map_fst. unfold sums. rewrite groupby_sum_keys.
    apply groupby_sorted. }
  pose proof (StronglySorted_firstn _ 10 _ (sort_desc_ranked snd _ sums Sk)) as Sd.
  change (firstn 10 (sort_desc snd sums)) with (nlargest 10 snd sums) in Sd.
  eapply StronglySorted_weaken;
    [|apply (insertion_sort_stable snd
               (fun a b : string * Z => snd a = snd b -> key_lt (fst a) (fst b)))].
  - intros a b [L T]. simpl in L, T.
    change (snd a <= snd b) in L.
    destruct (Z.eq_dec (snd a) (snd b)) as [E | N]; [right | left; lia].
    split; [exact E|].
    assert (C : (snd a ?= snd b) = Eq) by now apply Z.compare_eq_iff.
    specialize (T C E). unfold key_lt in T. simpl in T.
    unfold String.ltb. now rewrite T.
  - eapply StronglySorted_weaken; [|exact Sd].
    intros a b [_ T] E. apply T. apply Z.leb_le. lia.
Qed.

(** * Loading *)

Lemma first_segment_append (sep : ascii) (a b : string) :
  has_char sep a = false ->
  first_segment sep (a ++ String sep b) = a.
Proof.
  induction a as [|c a IH]; simpl; intros N.
  - now rewrite Ascii.eqb_refl.
  - apply orb_false_iff in N. destruct N as [Nc Na].
    rewrite Nc. now rewrite IH.
Qed.

Lemma first_segment_whole (sep : ascii) (a : string) :
  has_char sep a = false -> first_segment sep a = a.
Proof.
  induction a as [|c a IH]; simpl; intros N; [reflexivity|].
  apply orb_false_iff in N. destruct N as [Nc Na].
  rewrite Nc. now rewrite IH.
Qed.

Lemma first_segment_clean (sep : ascii) (s : string) :
  has_char sep (first_segment sep s) = false.
Proof.
  induction s as [|c s IH]; simpl; [reflexivity|].
  destruct (Ascii.eqb c sep) eqn:E; simpl; [reflexivity|].
  now rewrite E, IH.
Qed.

(** X1: The week a loaded row is filed under is read from the text of [week]
    before the first slash alone: whatever follows the slash plays no part,
    a label without a slash is parsed whole, and every source column is
    carried over unchanged. *)
Theorem load_row_week_start (parse_datetime : string -> Z) (x : SourceRecord)
  (start rest : string) :
  has_char "/" start = false ->
  (src_week x = (start ++ String "/" rest)%string \/ src_week x = start) ->
  let r := load_row parse_datetime x in
  week_start r = parse_datetime start /\
  week r = src_week x /\
  district r = src_district x /\ block r = src_block x /\
  school r = src_school x /\
  teachers_registered r = src_teachers_registered x /\
  baseline_assessments r = src_baseline_assessments x /\
  endline_assessments r = src_endline_assessments x /\
  baseline_average_level r = src_baseline_average_level x /\
  endline_average_level r = src_endline_average_level x /\
  tutoring_calls r = src_tutoring_calls x.
Proof.
  intros N Hweek r. subst r. unfold load_row. simpl.
  repeat split.
  destruct Hweek as [-> | ->].
  - now rewrite first_segment_append.
  - now rewrite first_segment_whole.
Qed.

Lemma load_row_week_start_witness :
  week_start (load_row (fun s => Z.of_nat (String.length s)) sample_source) = 10.
Proof.
  assert (N : has_char "/" "2024-01-01" = false) by (vm_compute; reflexivity).
  assert (W : src_week sample_source = ("2024-01-01" ++ String "/" "2024-01-07")%string
              \/ src_week sample_source = "2024-01-01").
  { left. vm_compute. reflexivity. }
  exact (proj1 (load_row_week_start (fun s => Z.of_nat (String.length s))
                  sample_source "2024-01-01" "2024-01-07" N W)).
Defined.

(** * Sidebar options and defaults *)

Lemma unique_from_In (seen l : list string) (x : string) :
  In x (unique_from seen l) <-> In x l /\ ~ In x seen.
Proof.
  revert seen. induction l as [|y l IH]; intros seen; simpl.
  - tauto.
  - destruct (isin y seen) eqn:E.
    + apply isin_In in E. rewrite IH. split.
      * intros [Hin N]. auto.
      * intros [[-> | Hin] N]; [contradiction | auto].
    + assert (Ny : ~ In y seen).
      { intros Hin. apply isin_In in Hin. congruence. }
      simpl. rewrite IH. simpl. split.
      * intros [-> | [Hin N]]; [auto | tauto].
      * intros [[-> | Hin] N]; [now left|].
        destruct (string_dec y x) as [-> | D]; [now left | right].
        split; [exact Hin | intros [Heq | Hs]; auto].
Qed.

Lemma unique_from_NoDup (seen l : list string) : NoDup (unique_from seen l).
Proof.
  revert seen. induction l as [|y l IH]; intros seen; simpl.
  - constructor.
  - destruct (isin y seen); [apply IH|].
    constructor; [|apply IH].
    rewrite unique_from_In. intros [_ N]. apply N. now left.
Qed.

Lemma sorted_perm (l : list string) : Permutation (sorted l) l.
Proof. apply insertion_sort_perm. Qed.

Lemma options_In (l : list string) (x : string) :
  In x (sorted (unique l)) <-> In x l.
Proof.
  split; intros Hin.
  - apply (Permutation_in _ (sorted_perm _)), unique_from_In in Hin. tauto.
  - apply (Permutation_in _ (Permutation_sym (sorted_perm _))).
    apply unique_from_In. auto.
Qed.

Lemma sorted_nodup_strict {A K : Type} `{KeyOrder K} (col : A -> K)
  (l : list A) :
  StronglySorted (fun a b => cmp (col a) (col b) <> Gt) l ->
  NoDup (map col l) ->
  StronglySorted (fun a b => key_lt (col a) (col b)) l.
Proof.
  induction 1 as [|a l S IH F]; simpl; intros N; constructor.
  - apply IH. now inversion N.
  - inversion N as [|? ? Hnotin _]; subst.
    rewrite Forall_forall in *. intros b Hb.
    pose proof (F b Hb) as L. unfold key_lt.
    destruct (cmp (col a) (col b)) eqn:E; [|reflexivity|congruence].
    apply cmp_eq in E. exfalso. apply Hnotin. rewrite E. now apply in_map.
Qed.

Lemma options_sorted (l : list string) :
  StronglySorted (fun a b => String.ltb a b = true) (sorted (unique l)).
Proof.
  eapply StronglySorted_weaken;
    [|apply (sorted_nodup_strict (fun x : string => x))].
  - intros a b L. unfold key_lt in L. simpl in L. unfold String.ltb. now rewrite L.
  - apply insertion_sort_sorted.
  - rewrite map_id.
    apply (Permutation_NoDup (Permutation_sym (sorted_perm _))).
    apply unique_from_NoDup.
Qed.

(** X2: The district multiselect offers exactly the districts that occur in the
    loaded table, each once, in ascending order; likewise the block and
    school multiselects. *)
Theorem multiselect_options (df : Table) :
  (StronglySorted (fun a b => String.ltb a b = true) (district_options df) /\
   forall x, In x (district_options df) <-> In x (map district df)) /\
  (StronglySorted (fun a b => String.ltb a b = true) (block_options df) /\
   forall x, In x (block_options df) <-> In x (map block df)) /\
  (StronglySorted (fun a b => String.ltb a b = true) (school_options df) /\
   forall x, In x (school_options df) <-> In x (map school df)).
Proof.
  unfold district_options, block_options, school_options.
  repeat split; try apply options_sorted; try apply options_In.
Qed.

Lemma set_allows_options (col : MetricRecord -> string) (df : Table)
  (r : MetricRecord) :
  In r df -> set_allows (sorted (unique (map col df))) (col r) = true.
Proof.
  intros Hin. apply set_allows_iff. right.
  apply options_In. now apply in_map.
Qed.

(** X3: Picking every option of the three multiselects gives the same table
    and notices as picking none. *)
Theorem select_all_is_select_none (df : Table) (s e : Z) :
  filtered_df (mkSelection (district_options df) (block_options df)
                           (school_options df) s e) df =
  filtered_df (mkSelection [] [] [] s e) df.
Proof.
  apply injective_projections.
  - rewrite !filtered_df_as_filter. apply filter_ext_in. intros r Hin.
    unfold row_selected, sets_allow, date_clause, in_date_range. simpl.
    unfold district_options, block_options, school_options.
    now rewrite !set_allows_options.
  - now rewrite !filtered_df_notices.
Qed.

Lemma fold_min_le (l : list Z) (x : Z) :
  fold_left Z.min l x <= x /\ forall y, In y l -> fold_left Z.min l x <= y.
Proof.
  revert x. induction l as [|a l IH]; intros x; simpl.
  - split; [lia | contradiction].
  - destruct (IH (Z.min x a)) as [L1 L2]. split; [lia|].
    intros y [<- | Hy]; [lia | now apply L2].
Qed.

Lemma fold_max_ge (l : list Z) (x : Z) :
  x <= fold_left Z.max l x /\ forall y, In y l -> y <= fold_left Z.max l x.
Proof.
  revert x. induction l as [|a l IH]; intros x; simpl.
  - split; [lia | contradiction].
  - destruct (IH (Z.max x a)) as [L1 L2]. split; [lia|].
    intros y [<- | Hy]; [lia | now apply L2].
Qed.

Lemma fold_max_In (l : list Z) (x : Z) : In (fold_left Z.max l x) (x :: l).
Proof.
  revert x. induction l as [|a l IH]; intros x; simpl; [now left|].
  destruct (IH (Z.max x a)) as [E | Hin]; [|now right; right].
  rewrite <- E. destruct (Z.max_spec x a) as [[_ ->] | [_ ->]]; auto.
Qed.

Lemma series_min_le (l : list Z) (m : Z) :
  series_min l = Some m -> forall y, In y l -> m <= y.
Proof.
  destruct l as [|x l]; simpl; [discriminate|].
  intros E y Hy. inversion E; subst.
  destruct (fold_min_le l x) as [L1 L2]. destruct Hy as [<- | Hy]; auto.
Qed.

Lemma series_max_ge (l : list Z) (m : Z) :
  series_max l = Some m -> In m l /\ forall y, In y l -> y <= m.
Proof.
  destruct l as [|x l]; simpl; [discriminate|].
  intros E. inversion E; subst. split; [apply fold_max_In|].
  intros y Hy. destruct (fold_max_ge l x) as [L1 L2].
  destruct Hy as [<- | Hy]; auto.
Qed.

Lemma filter_all {A : Type} (p : A -> bool) (l : list A) :
  (forall x, In x l -> p x = true) -> filter p l = l.
Proof.
  intros Hall. rewrite (filter_ext_in p (fun _ => true)); [apply filter_true|].
  exact Hall.
Qed.

(** X4: On a loaded table whose week_start values all fall on midnight, the
    selection of an untouched sidebar keeps every row and raises no
    notice. *)
Theorem default_selection_keeps_all (df : Table) (sel : Selection) :
  Forall (fun r => week_start r mod ns_per_day = 0) df ->
  default_selection df = Some sel ->
  filtered_df sel df = (df, []).
Proof.
  intros Hmid Hsel. unfold default_selection in Hsel.
  destruct (series_min (map week_start df)) as [lo|] eqn:Emin; [|discriminate].
  destruct (series_max (map week_start df)) as [hi|] eqn:Emax; [|discriminate].
  inversion Hsel; subst sel. clear Hsel.
  pose proof (series_min_le _ _ Emin) as Hlo.
  destruct (series_max_ge _ _ Emax) as [Hin Hhi].
  assert (Pos : 0 < ns_per_day) by (unfold ns_per_day; lia).
  assert (Hhi_mid : hi mod ns_per_day = 0).
  { apply in_map_iff in Hin. destruct Hin as [r [<- Hr]].
    rewrite Forall_forall in Hmid. now apply Hmid. }
  assert (Hlohi : lo <= hi) by (apply Hlo; exact Hin).
  assert (Hrange : (date_of lo >? date_of hi) = false).
  { rewrite Z.gtb_ltb. apply Z.ltb_ge. unfold date_of.
    apply Z.div_le_mono; assumption. }
  apply injective_projections.
  - rewrite filtered_df_as_filter. apply filter_all. intros r Hr.
    unfold row_selected, date_clause, sets_allow, in_date_range. simpl.
    rewrite Hrange. rewrite !andb_true_r.
    assert (Hw : In (week_start r) (map week_start df)) by now apply in_map.
    apply andb_true_iff. split; apply Z.leb_le; unfold to_datetime, date_of.
    + pose proof (Z.mul_div_le lo ns_per_day Pos). specialize (Hlo _ Hw). lia.
    + specialize (Hhi _ Hw).
      pose proof (Z.div_mod hi ns_per_day) as D. lia.
  - rewrite filtered_df_notices. simpl. now rewrite Hrange.
Qed.

Lemma default_selection_keeps_all_witness :
  filtered_df (mkSelection [] [] [] 19723 19737) sample_table = (sample_table, []).
Proof.
  assert (Hmid : Forall (fun r => week_start r mod ns_per_day = 0) sample_table).
  { repeat constructor. }
  assert (Hsel : default_selection sample_table =
                 Some (mkSelection [] [] [] 19723 19737)).
  { vm_compute. reflexivity. }
  exact (default_selection_keeps_all sample_table _ Hmid Hsel).
Defined.

(** * Narrowing and splitting a selection *)

(** X5: Narrowing a well-formed date range inside another, with the same
    district, block and school selections, keeps a part of the wider
    range's rows, and filtering the wider range's table with the narrower
    range gives what the narrower range gives on the loaded table. *)
Theorem date_range_narrowing (ds bs ss : list string) (s e s' e' : Z)
  (df : Table) :
  s <= s' -> s' <= e' -> e' <= e ->
  let wide := mkSelection ds bs ss s e in
  let narrow := mkSelection ds bs ss s' e' in
  (forall r, In r (fst (filtered_df narrow df)) ->
             In r (fst (filtered_df wide df))) /\
  fst (filtered_df narrow (fst (filtered_df wide df))) =
  fst (filtered_df narrow df).
Proof.
  intros H1 H2 H3 wide narrow.
  assert (Himp : forall r, row_selected narrow r = true ->
                           row_selected wide r = true).
  { intros r. unfold row_selected, date_clause, sets_allow, in_date_range.
    unfold wide, narrow, to_datetime, ns_per_day. simpl.
    destruct (s' >? e') eqn:E1; [apply Z.gtb_gt in E1; lia|].
    destruct (s >? e) eqn:E2; [apply Z.gtb_gt in E2; lia|].
    rewrite !andb_true_iff, !Z.leb_le. intros [[A B] C].
    split; [lia | exact C]. }
  split.
  - intros r. rewrite !filtered_df_as_filter, !filter_In.
    intros [Hin Hsel]. auto.
  - rewrite !filtered_df_as_filter, filter_filter.
    apply filter_ext. intros r.
    destruct (row_selected narrow r) eqn:E.
    + now rewrite (Himp r E).
    + apply andb_false_r.
Qed.

Lemma date_range_narrowing_witness :
  fst (filtered_df (mkSelection ["A"] [] [] 19725 19731)
         (fst (filtered_df (mkSelection ["A"] [] [] 19723 19737) sample_table))) =
  fst (filtered_df (mkSelection ["A"] [] [] 19725 19731) sample_table).
Proof.
  assert (H1 : 19723 <= 19725) by lia.
  assert (H2 : 19725 <= 19731) by lia.
  assert (H3 : 19731 <= 19737) by lia.
  exact (proj2 (date_range_narrowing ["A"] [] [] 19723 19737 19725 19731
                  sample_table H1 H2 H3)).
Defined.

Lemma Zsum_map_add {A : Type} (f g : A -> Z) (l : list A) :
  Zsum (map (fun x => f x + g x) l) = Zsum (map f l) + Zsum (map g l).
Proof. induction l as [|a l IH]; simpl; lia. Qed.

Lemma isin_app (x : string) (l l' : list string) :
  isin x (l ++ l') = isin x l || isin x l'.
Proof. unfold isin. apply existsb_app. Qed.

Lemma kpi_total_by_row (col : MetricRecord -> Z) (sel : Selection) (df : Table) :
  kpi_total col sel df =
  wrap64 (Zsum (map (fun r => if row_selected sel r then col r else 0) df)).
Proof.
  unfold kpi_total. rewrite series_sum_wrap, filtered_df_as_filter.
  f_equal. apply Zsum_filter.
Qed.

(** X6: A headline total over two district selections that share no district
    is the int64 sum of the totals over each, the other widgets being left
    as they are: their sum itself whenever that fits an int64. *)
Theorem kpi_total_splits_by_district (col : MetricRecord -> Z)
  (d1 d2 bs ss : list string) (s e : Z) (df : Table) :
  d1 <> [] -> d2 <> [] ->
  (forall x, In x d1 -> ~ In x d2) ->
  kpi_total col (mkSelection (d1 ++ d2) bs ss s e) df =
  wrap64 (kpi_total col (mkSelection d1 bs ss s e) df +
          kpi_total col (mkSelection d2 bs ss s e) df) /\
  (fits_int64 (kpi_total col (mkSelection d1 bs ss s e) df +
               kpi_total col (mkSelection d2 bs ss s e) df) ->
   kpi_total col (mkSelection (d1 ++ d2) bs ss s e) df =
   kpi_total col (mkSelection d1 bs ss s e) df +
   kpi_total col (mkSelection d2 bs ss s e) df).
Proof.
  intros N1 N2 Disj.
  assert (W : kpi_total col (mkSelection (d1 ++ d2) bs ss s e) df =
              wrap64 (kpi_total col (mkSelection d1 bs ss s e) df +
                      kpi_total col (mkSelection d2 bs ss s e) df)).
  { rewrite !kpi_total_by_row, wrap64_add_l, wrap64_add_r, <- Zsum_map_add.
    f_equal. f_equal. apply map_ext. intros r.
    unfold row_selected, sets_allow, date_clause, in_date_range. simpl.
    assert (E12 : set_allows (d1 ++ d2) (district r) =
                  isin (district r) d1 || isin (district r) d2).
    { destruct d1 as [|a d1]; [congruence|]. simpl app.
      change (set_allows (a :: d1 ++ d2) (district r))
        with (isin (district r) ((a :: d1) ++ d2)).
      apply isin_app. }
    assert (E1 : set_allows d1 (district r) = isin (district r) d1).
    { destruct d1; [congruence | reflexivity]. }
    assert (E2 : set_allows d2 (district r) = isin (district r) d2).
    { destruct d2; [congruence | reflexivity]. }
    rewrite E12, E1, E2.
    destruct (isin (district r) d1) eqn:I1, (isin (district r) d2) eqn:I2; simpl.
    - apply isin_In in I1. apply isin_In in I2. now destruct (Disj _ I1).
    - rewrite andb_false_r. simpl. lia.
    - rewrite andb_false_r. simpl. lia.
    - rewrite !andb_false_r. simpl. lia. }
  split; [exact W|]. intros F. rewrite W. now apply wrap64_fits.
Qed.

Lemma kpi_total_splits_by_district_witness :
  kpi_total teachers_registered (mkSelection (["A"] ++ ["C"]) [] [] 19723 19737)
            sample_table =
  kpi_total teachers_registered (mkSelection ["A"] [] [] 19723 19737) sample_table +
  kpi_total teachers_registered (mkSelection ["C"] [] [] 19723 19737) sample_table.
Proof.
  assert (N1 : ["A"] <> @nil string) by discriminate.
  assert (N2 : ["C"] <> @nil string) by discriminate.
  assert (Disj : forall x, In x ["A"] -> ~ In x ["C"]).
  { intros x [<- | []] [E | []]. discriminate. }
  assert (F : fits_int64
                (kpi_total teachers_registered (mkSelection ["A"] [] [] 19723 19737)
                           sample_table +
                 kpi_total teachers_registered (mkSelection ["C"] [] [] 19723 19737)
                           sample_table)).
  { vm_compute. split; [discriminate | reflexivity]. }
  exact (proj2 (kpi_total_splits_by_district teachers_registered ["A"] ["C"] [] []
                  19723 19737 sample_table N1 N2 Disj) F).
Defined.

(** * Sorting a grouped frame by its keys *)

Lemma strictly_sorted_perm_eq {A K : Type} `{KeyOrder K} (col : A -> K)
  (l l' : list A) :
  StronglySorted (fun a b => key_lt (col a) (col b)) l ->
  StronglySorted (fun a b => key_lt (col a) (col b)) l' ->
  Permutation l l' -> l = l'.
Proof.
  intros S. revert l'. induction S as [|a l S IH F]; intros l' S' P.
  - apply Permutation_nil in P. now subst.
  - destruct l' as [|a' l'].
    + apply Permutation_sym, Permutation_nil in P. discriminate.
    + apply StronglySorted_inv in S'. destruct S' as [S' F'].
      rewrite Forall_forall in F, F'.
      assert (Heq : a = a').
      { assert (Ha : In a (a' :: l')).
        { apply (Permutation_in _ P). now left. }
        assert (Ha' : In a' (a :: l)).
        { apply (Permutation_in _ (Permutation_sym P)). now left. }
        destruct Ha as [E | Ha]; [now symmetry|].
        destruct Ha' as [E | Ha']; [exact E|].
        pose proof (cmp_trans _ _ _ (F _ Ha') (F' _ Ha)) as C.
        rewrite cmp_refl in C. discriminate. }
      subst a'. f_equal. apply IH; [exact S'|].
      exact (Permutation_cons_inv P).
Qed.

(** Ascending sort of rows whose keys are already strictly ascending
    returns them as they are, whatever the sorting routine. *)
Lemma sort_values_sorted_keys `{Sorter} {A K : Type} `{KeyOrder K}
  (col : A -> K) (l : list A) :
  StronglySorted key_lt (map col l) -> sort_values col l = l.
Proof.
  intros S.
  assert (S1 : StronglySorted (fun a b => key_lt (col a) (col b)) l).
  { clear -S. induction l as [|x l IH]; simpl in *; constructor.
    - apply IH. now inversion S.
    - apply StronglySorted_inv in S. destruct S as [_ F].
      rewrite Forall_forall in *. intros y Hy. apply F. now apply in_map. }
  apply strictly_sorted_perm_eq with (col := col); [|exact S1|].
  - apply sorted_nodup_strict; [apply sort_values_sorted|].
    apply (Permutation_NoDup
             (Permutation_sym (Permutation_map col (sort_values_perm _ _ _ col l)))).
    now apply sorted_keys_NoDup.
  - apply sort_values_perm.
Qed.

Lemma groupby_sum2_keys {Row K : Type} `{KeyOrder K} (key : Row -> K)
  (col1 col2 : Row -> Z) (df : list Row) :
  map fst (groupby_sum2 key col1 col2 df) = map fst (groupby key df).
Proof. unfold groupby_sum2. rewrite map_map. reflexivity. Qed.

(** X7: The [sort_values] that follows each [groupby] changes nothing: the
    weekly sums, the weekly assessment counts, the per-week breakdown of
    tab 1 and the district averages of the heatmap are the grouped frames
    themselves, for every sorting routine. *)
Theorem sort_after_groupby_is_identity `{Sorter} (filtered : Table) :
  (forall col, weekly_sum col filtered = groupby_sum week_start col filtered) /\
  weekly_assessments filtered =
    groupby_sum2 week_start baseline_assessments endline_assessments filtered /\
  (forall group_option,
     group_data group_option filtered =
     groupby_sum (fun x => (week_start x, dimension_column group_option x))
                 teachers_registered filtered) /\
  (forall mean,
     district_levels mean filtered = groupby_mean mean district filtered).
Proof.
  repeat split; intros;
    unfold weekly_sum, weekly_assessments, group_data, district_levels;
    apply sort_values_sorted_keys;
    rewrite ?groupby_sum_keys, ?groupby_sum2_keys, ?groupby_mean_keys;
    apply groupby_sorted.
Qed.

(** X8: The heatmap is well-shaped: its two rows of values are as long as its
    list of column labels, and the labels are the districts of the filtered
    table, each once, in ascending order. *)
Theorem heatmap_shape `{Sorter} (mean : list Q -> Q) (filtered : Table) :
  Forall (fun row => List.length row = List.length (heatmap_x mean filtered))
         (heatmap_z mean filtered) /\
  List.length (heatmap_x mean filtered) = nunique (map district filtered) /\
  StronglySorted (fun a b => String.ltb a b = true) (heatmap_x mean filtered) /\
  (forall d, In d (heatmap_x mean filtered) <-> In d (map district filtered)).
Proof.
  assert (E : district_levels mean filtered = groupby_mean mean district filtered).
  { unfold district_levels. apply sort_values_sorted_keys.
    rewrite groupby_mean_keys. apply groupby_sorted. }
  unfold heatmap_z, heatmap_x. rewrite E.
  split; [|split; [|split]].
  - repeat constructor; now rewrite !length_map.
  - rewrite length_map. apply groupby_mean_length.
  - rewrite groupby_mean_keys.
    eapply StronglySorted_weaken; [|apply (groupby_sorted district filtered)].
    intros a b L. unfold key_lt in L. simpl in L. unfold String.ltb. now rewrite L.
  - intros d. rewrite groupby_mean_keys. apply groupby_keys.
Qed.

(** * Assessments by district or block *)

Lemma group_assess_unfold (assess_option : AssessOption) (filtered : Table) :
  group_assess assess_option filtered =
  groupby_sum2 (assess_key assess_option) baseline_assessments
               endline_assessments filtered.
Proof. now destruct assess_option. Qed.

Lemma groupby_sum2_value {Row K : Type} `{KeyOrder K} (key : Row -> K)
  (col1 col2 : Row -> Z) (df : list Row) (k : K) (v1 v2 : Z) :
  In (k, (v1, v2)) (groupby_sum2 key col1 col2 df) ->
  v1 = wrap64 (Zsum (map col1 (filter (fun r => key_eqb k (key r)) df))) /\
  v2 = wrap64 (Zsum (map col2 (filter (fun r => key_eqb k (key r)) df))).
Proof.
  unfold groupby_sum2. rewrite in_map_iff. intros [[k' rs] [Heq Hin]].
  simpl in Heq. inversion Heq; subst.
  rewrite !series_sum_wrap, (groupby_group key df k rs Hin). auto.
Qed.

(** Modulo 2^64 the two aggregated columns add up to the columns of the
    frame. *)
Lemma groupby_sum2_totals {Row K : Type} `{KeyOrder K} (key : Row -> K)
  (col1 col2 : Row -> Z) (df : list Row) :
  wrap64 (Zsum (map (fun row => fst (snd row)) (groupby_sum2 key col1 col2 df))) =
    wrap64 (Zsum (map col1 df)) /\
  wrap64 (Zsum (map (fun row => snd (snd row)) (groupby_sum2 key col1 col2 df))) =
    wrap64 (Zsum (map col2 df)).
Proof.
  unfold groupby_sum2. rewrite !map_map. simpl.
  rewrite (map_ext (fun x : K * list Row => series_sum (map col1 (snd x)))
                   (fun g => wrap64 (Zsum (map col1 (snd g)))))
    by (intros g; apply series_sum_wrap).
  rewrite (map_ext (fun x : K * list Row => series_sum (map col2 (snd x)))
                   (fun g => wrap64 (Zsum (map col2 (snd g)))))
    by (intros g; apply series_sum_wrap).
  rewrite !wrap64_Zsum_wrapped, !groupby_exact_total. auto.
Qed.

(** With non-negative counts whose total fits an int64 nothing wraps. *)
Lemma groupby_sums_exact {Row K : Type} `{KeyOrder K} (key : Row -> K)
  (col : Row -> Z) (df : list Row) :
  counts_fit col df ->
  Zsum (map (fun g => series_sum (map col (snd g))) (groupby key df)) =
  Zsum (map col df).
Proof.
  intros F. rewrite <- (groupby_exact_total key col df).
  f_equal. apply map_ext_in. intros [k rs] Hin. simpl.
  rewrite series_sum_wrap. apply wrap64_fits.
  rewrite (groupby_group key df k rs Hin). now apply counts_fit_part.
Qed.

Lemma groupby_sum2_totals_exact {Row K : Type} `{KeyOrder K} (key : Row -> K)
  (col1 col2 : Row -> Z) (df : list Row) :
  (counts_fit col1 df ->
   Zsum (map (fun row => fst (snd row)) (groupby_sum2 key col1 col2 df)) =
   Zsum (map col1 df)) /\
  (counts_fit col2 df ->
   Zsum (map (fun row => snd (snd row)) (groupby_sum2 key col1 col2 df)) =
   Zsum (map col2 df)).
Proof.
  unfold groupby_sum2. rewrite !map_map. simpl.
  split; intros F; now apply groupby_sums_exact.
Qed.

(** X9: The bar chart of tab 2 has one row per district (or block) of the
    filtered table, in ascending order of name; a row carries the int64
    sums of the baseline and endline counts over that district's rows, and
    modulo 2^64 each of the two columns adds up to the column's total over
    the filtered table, the figure the pie chart above it shows.  For
    non-negative counts whose total is below 2^63 the sums and the totals
    are the exact ones. *)
Theorem group_assess_spec (assess_option : AssessOption) (filtered : Table) :
  let out := group_assess assess_option filtered in
  let key := assess_key assess_option in
  let part := fun (col : MetricRecord -> Z) (k : string) =>
    Zsum (map col (filter (fun r => String.eqb (key r) k) filtered)) in
  StronglySorted (fun a b => String.ltb a b = true) (map fst out) /\
  (forall k, In k (map fst out) <-> In k (map key filtered)) /\
  (forall k b e, In (k, (b, e)) out ->
     b = wrap64 (part baseline_assessments k) /\
     e = wrap64 (part endline_assessments k)) /\
  wrap64 (Zsum (map (fun row => fst (snd row)) out)) =
    series_sum (map baseline_assessments filtered) /\
  wrap64 (Zsum (map (fun row => snd (snd row)) out)) =
    series_sum (map endline_assessments filtered) /\
  (counts_fit baseline_assessments filtered ->
     (forall k b e, In (k, (b, e)) out -> b = part baseline_assessments k) /\
     Zsum (map (fun row => fst (snd row)) out) =
       Zsum (map baseline_assessments filtered) /\
     series_sum (map baseline_assessments filtered) =
       Zsum (map baseline_assessments filtered)) /\
  (counts_fit endline_assessments filtered ->
     (forall k b e, In (k, (b, e)) out -> e = part endline_assessments k) /\
     Zsum (map (fun row => snd (snd row)) out) =
       Zsum (map endline_assessments filtered) /\
     series_sum (map endline_assessments filtered) =
       Zsum (map endline_assessments filtered)).
Proof.
  intros out key part. subst out key part. rewrite group_assess_unfold.
  set (key := assess_key assess_option).
  assert (V : forall k b e,
             In (k, (b, e)) (groupby_sum2 key baseline_assessments
                                          endline_assessments filtered) ->
             b = wrap64 (Zsum (map baseline_assessments
                                 (filter (fun r => String.eqb (key r) k) filtered))) /\
             e = wrap64 (Zsum (map endline_assessments
                                 (filter (fun r => String.eqb (key r) k) filtered)))).
  { intros k b e Hin.
    rewrite !(filter_ext (fun r => String.eqb (key r) k)
                         (fun r => key_eqb k (key r)))
      by (intros r; rewrite String.eqb_sym; symmetry; apply string_key_eqb).
    exact (groupby_sum2_value _ _ _ _ _ _ _ Hin). }
  rewrite !series_sum_wrap.
  split; [|split; [|split; [|split; [|split; [|split]]]]].
  - rewrite groupby_sum2_keys.
    eapply StronglySorted_weaken; [|apply (groupby_sorted key filtered)].
    intros a b L. unfold key_lt in L. simpl in L. unfold String.ltb. now rewrite L.
  - intros k. rewrite groupby_sum2_keys. apply groupby_keys.
  - exact V.
  - apply groupby_sum2_totals.
  - apply groupby_sum2_totals.
  - intros F. split; [|split].
    + intros k b e Hin. destruct (V k b e Hin) as [-> _].
      apply wrap64_fits. now apply counts_fit_part.
    + now apply groupby_sum2_totals_exact.
    + apply wrap64_fits. now apply counts_fit_all.
  - intros F. split; [|split].
    + intros k b e Hin. destruct (V k b e Hin) as [_ ->].
      apply wrap64_fits. now apply counts_fit_part.
    + now apply groupby_sum2_totals_exact.
    + apply wrap64_fits. now apply counts_fit_all.
Qed.

(** * Row totals of the tab 1 pivot *)

Lemma Zsum_zeros {A : Type} (l : list A) : Zsum (map (fun _ => 0) l) = 0.
Proof. induction l as [|a l IH]; simpl; lia. Qed.

Lemma Zsum_indicator {K : Type} `{KeyOrder K} (d : K) (a : Z) (cs : list K) :
  NoDup cs -> In d cs ->
  Zsum (map (fun c => if key_eqb d c then a else 0) cs) = a.
Proof.
  induction 1 as [|c cs Hnotin N IH]; simpl; intros Hin; [contradiction|].
  destruct (key_eqb d c) eqn:E.
  - apply key_eqb_eq in E. subst c.
    rewrite (map_ext_in _ (fun _ => 0)); [rewrite Zsum_zeros; lia|].
    intros c Hc. destruct (key_eqb d c) eqn:E'; [|reflexivity].
    apply key_eqb_eq in E'. now subst.
  - destruct Hin as [-> | Hin]; [now rewrite key_eqb_refl in E|].
    now rewrite IH.
Qed.

(** Splitting the rows that pass a test by the value of a column, and
    adding up the parts, gives the sum over the rows that pass. *)
Lemma Zsum_partition {A K : Type} `{KeyOrder K} (p : A -> bool) (dim : A -> K)
  (v : A -> Z) (cs : list K) (l : list A) :
  NoDup cs -> (forall x, In x l -> In (dim x) cs) ->
  Zsum (map (fun c => Zsum (map v (filter (fun x => p x && key_eqb (dim x) c) l))) cs) =
  Zsum (map v (filter p l)).
Proof.
  intros N. induction l as [|x l IH]; intros Hcover.
  - simpl. apply Zsum_zeros.
  - assert (Hl : forall y, In y l -> In (dim y) cs).
    { intros y Hy. apply Hcover. now right. }
    specialize (IH Hl).
    rewrite (map_ext _
      (fun c => (if p x then (if key_eqb (dim x) c then v x else 0) else 0) +
                Zsum (map v (filter (fun y => p y && key_eqb (dim y) c) l)))).
    + rewrite Zsum_map_add, IH. simpl. destruct (p x); simpl.
      * rewrite Zsum_indicator; [reflexivity | exact N |].
        apply Hcover. now left.
      * now rewrite Zsum_zeros.
    + intros c. simpl. destruct (p x); simpl; [|reflexivity].
      destruct (key_eqb (dim x) c); reflexivity.
Qed.

Lemma round53_exact (z : Z) : Z.abs z < 2 ^ 53 -> round53 z = z.
Proof.
  intros B. unfold round53. cbv zeta.
  destruct (Z.eq_dec z 0) as [-> | N]; [reflexivity|].
  assert (L : Z.log2 (Z.abs z) < 53) by (apply Z.log2_lt_pow2; lia).
  destruct (Z.leb_spec (Z.log2 (Z.abs z) - 52) 0); [reflexivity | lia].
Qed.

Lemma Qsum_inject_Z {A : Type} (f : A -> Z) (l : list A) :
  Qsum (map (fun x => inject_Z (f x)) l) == inject_Z (Zsum (map f l)).
Proof.
  unfold Qsum. induction l as [|a l IH]; simpl; [reflexivity|].
  rewrite IH, inject_Z_plus. reflexivity.
Qed.

(** X12: When the pivot of tab 1 comes out and the counts are non-negative
    with a total below 2^53, each of its rows, with the gaps filled by 0,
    adds up to the week's total of teachers_registered over the filtered
    table: the figure the line chart above shows for that week. *)
Theorem pivot_df_row_totals `{Sorter} (group_option : Dimension)
  (filtered : Table) (t : Table2D Z string) (w : Z)
  (cells : list (string * option Number)) :
  (forall x, In x filtered -> 0 <= teachers_registered x) ->
  Zsum (map teachers_registered filtered) < 2 ^ 53 ->
  pivot_df group_option filtered = Some t ->
  In (w, cells) t ->
  row_total cells ==
  inject_Z (Zsum (map teachers_registered
                    (filter (fun x => week_start x =? w) filtered))).
Proof.
  intros Hpos Hlt Ht Hin. unfold pivot_df, pivot in Ht.
  set (dim := dimension_column group_option) in *.
  set (entries := map (fun e : Z * string * Z => (fst e, IntNum (snd e)))
                      (group_data group_option filtered)) in *.
  pose proof (group_data_entries group_option filtered) as P.
  fold dim in P. fold entries in P.
  destruct (has_duplicates (map fst (group_data group_option filtered)));
    [discriminate|].
  simpl in Ht. inversion Ht; subst t. clear Ht.
  unfold fillna, unstack in Hin. rewrite map_map in Hin.
  apply in_map_iff in Hin. destruct Hin as [w' [Heq Hw]].
  simpl in Heq. inversion Heq; subst w' cells. clear Heq.
  unfold row_total. rewrite !map_map. simpl.
  set (agg := fun rows : list MetricRecord =>
                IntNum (series_sum (map teachers_registered rows))) in P.
  rewrite (pair_sums_gap week_start dim agg filtered entries P).
  set (cs := map fst (groupby (fun e : Z * string * Number => snd (fst e)) entries)).
  assert (Part : forall p : MetricRecord -> bool,
             Z.abs (Zsum (map teachers_registered (filter p filtered))) < 2 ^ 53).
  { intros p. pose proof (Zsum_filter_bounds teachers_registered p filtered Hpos).
    lia. }
  set (part := fun c : string =>
                 Zsum (map teachers_registered
                         (filter (fun x => key_eqb (week_start x) w && key_eqb (dim x) c)
                                 filtered))).
  assert (Cells : forall c,
             number_value
               match option_map (promotion (sparse week_start dim filtered))
                                (lookup_entry entries w c) with
               | Some y => y
               | None => FloatNum (inject_Z 0)
               end = inject_Z (part c)).
  { intros c. unfold part.
    rewrite (pair_sums_lookup week_start dim agg filtered entries P w c).
    unfold in_cell.
    destruct (existsb (fun x => key_eqb (week_start x) w && key_eqb (dim x) c)
                      filtered) eqn:E.
    - simpl. unfold agg. rewrite series_sum_wrap, wrap64_fits.
      + destruct (sparse week_start dim filtered); simpl; [|reflexivity].
        unfold float64_of_int. now rewrite round53_exact.
      + specialize (Part (fun x => key_eqb (week_start x) w && key_eqb (dim x) c)).
        unfold fits_int64. lia.
    - simpl. now rewrite (existsb_false_filter _ _ E). }
  rewrite (map_ext _ (fun x : string * list (Z * string * Number) =>
                        inject_Z (part (fst x))))
    by (intros x; apply Cells).
  rewrite <- (map_map fst (fun c => inject_Z (part c))).
  fold cs. rewrite Qsum_inject_Z. unfold part. rewrite Zsum_partition.
  - rewrite (filter_ext (fun x => key_eqb (week_start x) w)
                        (fun x => week_start x =? w))
      by (intros x; apply Z_key_eqb).
    reflexivity.
  - apply sorted_keys_NoDup. apply groupby_sorted.
  - intros x Hx. unfold cs. apply groupby_keys.
    apply (pair_sums_columns week_start dim agg filtered entries P).
    now apply in_map.
Qed.

Lemma pivot_df_row_totals_witness :
  row_total [("A", Some (FloatNum (5 # 1))); ("C", Some (FloatNum (0 # 1)))] ==
  inject_Z 5.
Proof.
  assert (Hpos : forall x, In x sparse_table -> 0 <= teachers_registered x).
  { intros x Hx. simpl in Hx.
    repeat (destruct Hx as [<- | Hx]; [vm_compute; discriminate|]).
    contradiction. }
  assert (Hlt : Zsum (map teachers_registered sparse_table) < 2 ^ 53).
  { vm_compute. reflexivity. }
  assert (Ht : pivot_df District sparse_table =
               Some [ (day 19723, [("A", Some (FloatNum (5 # 1)));
                                   ("C", Some (FloatNum (0 # 1)))]);
                      (day 19730, [("A", Some (FloatNum (0 # 1)));
                                   ("C", Some (FloatNum (8 # 1)))]) ]).
  { vm_compute. reflexivity. }
  assert (Hin : In (day 19723, [("A", Some (FloatNum (5 # 1)));
                                ("C", Some (FloatNum (0 # 1)))])
                   [ (day 19723, [("A", Some (FloatNum (5 # 1)));
                                  ("C", Some (FloatNum (0 # 1)))]);
                     (day 19730, [("A", Some (FloatNum (0 # 1)));
                                  ("C", Some (FloatNum (8 # 1)))]) ]).
  { now left. }
  exact (pivot_df_row_totals District sparse_table _ _ _ Hpos Hlt Ht Hin).
Defined.

(** * The ranking on any table *)

(** X13: On any filtered table the ranking has ten rows, or one per school when
    there are fewer than ten; no school appears twice, every school shown
    is a school of the table, and with at most ten schools all of them are
    shown. *)
Theorem top_schools_tutoring_rows `{Sorter} (filtered : Table) :
  let top := top_schools_tutoring filtered in
  List.length top = Nat.min 10 (nunique (map school filtered)) /\
  NoDup (map fst top) /\
  (forall s, In s (map fst top) -> In s (map school filtered)) /\
  ((nunique (map school filtered) <= 10)%nat ->
   forall s, In s (map school filtered) -> In s (map fst top)).
Proof.
  intros top. subst top.
  set (sums := groupby_sum school tutoring_calls filtered).
  pose proof (top_schools_kept filtered) as P. fold sums in P.
  pose proof (nlargest_split 10 snd sums) as Q.
  assert (Len : List.length sums = nunique (map school filtered)).
  { unfold sums, nunique. apply groupby_sum_length. }
  assert (Keys : forall s, In s (map fst sums) <-> In s (map school filtered)).
  { intros s. unfold sums. rewrite groupby_sum_keys. apply groupby_keys. }
  assert (N : NoDup (map fst sums)).
  { unfold sums. rewrite groupby_sum_keys.
    apply sorted_keys_NoDup, groupby_sorted. }
  split; [|split; [|split]].
  - rewrite (Permutation_length P), nlargest_length. now rewrite Len.
  - apply (Permutation_NoDup (Permutation_sym (Permutation_map fst P))).
    apply (Permutation_NoDup (Permutation_sym (Permutation_map fst Q))) in N.
    rewrite map_app in N. exact (NoDup_app_remove_r _ _ N).
  - intros s Hin. apply Keys.
    apply (Permutation_in _ (Permutation_map fst P)) in Hin.
    apply in_map_iff in Hin. destruct Hin as [row [<- Hrow]].
    apply in_map. exact (nlargest_In snd 10 sums row Hrow).
  - intros Hfew s Hin. apply Keys in Hin.
    apply (Permutation_in _ (Permutation_sym (Permutation_map fst P))).
    unfold nlargest. rewrite firstn_all2.
    + exact (Permutation_in _ (Permutation_sym (Permutation_map fst (sort_desc_perm snd sums))) Hin).
    + rewrite (Permutation_length (sort_desc_perm snd sums)). lia.
Qed.

(** X14: When no row has a negative count of tutoring calls and the calls of
    the filtered table add up to less than 2^63, the bars of the ranking
    never add up to more than the Total Tutoring Calls figure over the same
    filtered table. *)
Theorem top_schools_within_total `{Sorter} (filtered : Table) :
  (forall r, In r filtered -> 0 <= tutoring_calls r) ->
  Zsum (map tutoring_calls filtered) < 2 ^ 63 ->
  Zsum (map snd (top_schools_tutoring filtered)) <=
  series_sum (map tutoring_calls filtered).
Proof.
  intros Hpos Hlt.
  assert (F : counts_fit tutoring_calls filtered) by (split; assumption).
  set (sums := groupby_sum school tutoring_calls filtered).
  pose proof (top_schools_kept filtered) as P. fold sums in P.
  pose proof (nlargest_split 10 snd sums) as Q.
  rewrite series_sum_wrap, (wrap64_fits _ (counts_fit_all _ _ F)).
  rewrite <- (groupby_sum_total_exact school tutoring_calls filtered)
    by (intros k; now apply counts_fit_part).
  fold sums.
  rewrite (Zsum_Permutation _ _ (Permutation_map snd P)).
  rewrite <- (Zsum_Permutation _ _ (Permutation_map snd Q)).
  rewrite map_app, Zsum_app.
  assert (0 <= Zsum (map snd (skipn 10 (sort_desc snd sums)))); [|lia].
  apply Zsum_nonneg. rewrite Forall_forall. intros v Hv.
  apply in_map_iff in Hv. destruct Hv as [[s v'] [<- Hrow]]. simpl.
  assert (Hin : In (s, v') sums).
  { apply (Permutation_in _ Q). apply in_or_app. now right. }
  rewrite (groupby_sum_value _ _ _ _ _ Hin).
  rewrite (wrap64_fits _ (counts_fit_part _ _ _ F)).
  apply Zsum_nonneg. rewrite Forall_forall. intros c Hc.
  apply in_map_iff in Hc. destruct Hc as [r [<- Hr]].
  apply Hpos. apply filter_In in Hr. tauto.
Qed.

Lemma top_schools_within_total_witness :
  Zsum (map snd (top_schools_tutoring ranking_table)) <=
  series_sum (map tutoring_calls ranking_table).
Proof.
  assert (Hpos : forall r, In r ranking_table -> 0 <= tutoring_calls r).
  { intros r Hin. unfold ranking_table in Hin. simpl in Hin.
    repeat (destruct Hin as [<- | Hin]; [simpl; lia|]). contradiction. }
  assert (Hlt : Zsum (map tutoring_calls ranking_table) < 2 ^ 63).
  { vm_compute. reflexivity. }
  exact (top_schools_within_total ranking_table Hpos Hlt).
Defined.

(** * The database preview *)

(** X15: Every row the preview prints is a row of the table in district
    DHARWAD; it prints five rows, or all the DHARWAD rows when there are
    fewer, and they are the first rows the dashboard's district filter
    gives for the selection DHARWAD. *)
Theorem database_preview_rows (youth_impact : Table) (bs ss : list string)
  (s e : Z) :
  let sel := mkSelection ["DHARWAD"] bs ss s e in
  (forall r, In r (database_preview youth_impact) ->
             In r youth_impact /\ district r = "DHARWAD") /\
  List.length (database_preview youth_impact) =
    Nat.min 5 (List.length (dharwad_query youth_impact)) /\
  database_preview youth_impact = firstn 5 (filter_district sel youth_impact).
Proof.
  intros sel. unfold database_preview, head, dharwad_query.
  split; [|split].
  - intros r Hin.
    assert (Hq : In r (filter (fun x => String.eqb (district x) "DHARWAD") youth_impact)).
    { rewrite <- (firstn_skipn 5 _). apply in_or_app. now left. }
    apply filter_In in Hq. destruct Hq as [Hr E].
    apply String.eqb_eq in E. auto.
  - apply length_firstn.
  - f_equal. unfold filter_district, sel. simpl.
    apply filter_ext. intros r. unfold isin. simpl. now rewrite orb_false_r.
Qed.

(** * Weekly assessment counts *)

(** X16: The weekly assessment counts of tab 2 have one row per week_start of
    the filtered table, in strictly ascending order; a row carries the
    int64 sums of the baseline and endline counts over that week's rows,
    and modulo 2^64 each column adds up to the corresponding headline
    total.  For non-negative counts whose total is below 2^63 the sums and
    the totals are the exact ones. *)
Theorem weekly_assessments_spec `{Sorter} (filtered : Table) :
  let out := weekly_assessments filtered in
  let part := fun (col : MetricRecord -> Z) (w : Z) =>
    Zsum (map col (filter (fun r => week_start r =? w) filtered)) in
  StronglySorted Z.lt (map fst out) /\
  (forall w, In w (map fst out) <-> In w (map week_start filtered)) /\
  (forall w b e, In (w, (b, e)) out ->
     b = wrap64 (part baseline_assessments w) /\
     e = wrap64 (part endline_assessments w)) /\
  wrap64 (Zsum (map (fun row => fst (snd row)) out)) =
    series_sum (map baseline_assessments filtered) /\
  wrap64 (Zsum (map (fun row => snd (snd row)) out)) =
    series_sum (map endline_assessments filtered) /\
  (counts_fit baseline_assessments filtered ->
     (forall w b e, In (w, (b, e)) out -> b = part baseline_assessments w) /\
     Zsum (map (fun row => fst (snd row)) out) =
       Zsum (map baseline_assessments filtered) /\
     series_sum (map baseline_assessments filtered) =
       Zsum (map baseline_assessments filtered)) /\
  (counts_fit endline_assessments filtered ->
     (forall w b e, In (w, (b, e)) out -> e = part endline_assessments w) /\
     Zsum (map (fun row => snd (snd row)) out) =
       Zsum (map endline_assessments filtered) /\
     series_sum (map endline_assessments filtered) =
       Zsum (map endline_assessments filtered)).
Proof.
  intros out part. subst out part.
  assert (E : weekly_assessments filtered =
              groupby_sum2 week_start baseline_assessments endline_assessments
                           filtered).
  { unfold weekly_assessments. apply sort_values_sorted_keys.
    rewrite groupby_sum2_keys. apply groupby_sorted. }
  rewrite E.
  assert (V : forall w b e,
             In (w, (b, e)) (groupby_sum2 week_start baseline_assessments
                                          endline_assessments filtered) ->
             b = wrap64 (Zsum (map baseline_assessments
                                 (filter (fun r => week_start r =? w) filtered))) /\
             e = wrap64 (Zsum (map endline_assessments
                                 (filter (fun r => week_start r =? w) filtered)))).
  { intros w b e Hin.
    rewrite !(filter_ext (fun r => week_start r =? w)
                         (fun r => key_eqb w (week_start r)))
      by (intros r; rewrite Z.eqb_sym; symmetry; apply Z_key_eqb).
    exact (groupby_sum2_value _ _ _ _ _ _ _ Hin). }
  rewrite !series_sum_wrap.
  split; [|split; [|split; [|split; [|split; [|split]]]]].
  - rewrite groupby_sum2_keys.
    eapply StronglySorted_weaken; [|apply (groupby_sorted week_start filtered)].
    intros a b L. unfold key_lt in L. simpl in L. now apply Z.compare_lt_iff.
  - intros w. rewrite groupby_sum2_keys. apply groupby_keys.
  - exact V.
  - apply groupby_sum2_totals.
  - apply groupby_sum2_totals.
  - intros F. split; [|split].
    + intros w b e Hin. destruct (V w b e Hin) as [-> _].
      apply wrap64_fits. now apply counts_fit_part.
    + now apply groupby_sum2_totals_exact.
    + apply wrap64_fits. now apply counts_fit_all.
  - intros F. split; [|split].
    + intros w b e Hin. destruct (V w b e Hin) as [_ ->].
      apply wrap64_fits. now apply counts_fit_part.
    + now apply groupby_sum2_totals_exact.
    + apply wrap64_fits. now apply counts_fit_all.
Qed.

(** * Cells of the tab 1 pivot on sample data *)

Lemma pivot_df_cell_witness :
  exists t,
    pivot_df District sparse_table = Some t /\
    cell_at t (day 19723) "C" = Some (Some (FloatNum (0 # 1))).
Proof.
  assert (Hw : In (day 19723) (map week_start sparse_table)) by now left.
  assert (Hd : In "C" (map (dimension_column District) sparse_table))
    by (right; now left).
  exact (pivot_df_cell District sparse_table (day 19723) "C" Hw Hd).
Defined.
